(** * steelDeoxDesulf101: the numeric core of the notebooks

    Two pipelines are embedded here, each definition following the Python
    function of the same name:

    - [src/en/Deox.py]: the Al-O deoxidation equilibrium (coefficient
      functions, the residual [Al_O_eqs], the wrapper [calc_pure] around
      SciPy's root finder, and the curve sweep [data_deox]);
    - [src/es/EVGumbel-ES.py]: the Gumbel extreme-value fit ([eCDF],
      [fitEVmom], [fitEVml], [calcSE], [calcRedVar], [gumbelPlot]).

    The Python code is duck-typed over its numbers (the same formulas are
    evaluated on Python floats, on NumPy arrays and, in
    [src/pt/Deox-casadi.py], on symbolic expressions).  The embedding keeps
    that: every function is written once over the interface [Arith], which
    has two instances,

    - [Binary64.arith]: IEEE 754 binary64, the arithmetic Python runs; every
      definition computes there;
    - [Ideal.arith]: exact real arithmetic extended with one undefined value,
      in which the algebraic and analytic statements are proved (rounding is
      not part of that instance).

    Python's own numbers and NumPy's differ where an operation has no
    finite result: a Python float raises ZeroDivisionError on a zero divisor
    and OverflowError when [**] overflows, a NumPy number or array returns
    an infinity or NaN.  Each definition follows the kind of number its
    argument has where the notebooks call it (the temperature is the Python
    number [T = 1873]; contents and measurements are NumPy numbers and
    arrays); [Scalar] has [calcSE] as it runs on Python floats.

    Exceptions are values of [exn]; a call that may raise returns a
    [result]. *)

From Stdlib Require Import Floats Uint63 DecimalString.
From Stdlib Require Import ZArith List String Bool Lia.
From Stdlib Require Import Reals Lra Psatz.
From Stdlib Require Import Permutation Sorted.
Import ListNotations.

Set Warnings "-inexact-float".

(** ** Python exceptions and results *)

Inductive exn : Type :=
| ValueError (msg : string)
| ZeroDivisionError
| OverflowError
| UnboundLocalError (name : string).

Inductive result (X : Type) : Type :=
| Ok (x : X)
| Raise (e : exn).

Arguments Ok {X} x.
Arguments Raise {X} e.

Definition bind {X Y : Type} (c : result X) (k : X -> result Y) : result Y :=
  match c with
  | Ok x => k x
  | Raise e => Raise e
  end.

Declare Scope py_scope.
Delimit Scope py_scope with py.

Notation "x <- c ;; k" := (bind c (fun x => k))
  (at level 61, c at next level, right associativity) : py_scope.
Notation "' p <- c ;; k" := (bind c (fun x => let p := x in k))
  (at level 61, p pattern, c at next level, right associativity) : py_scope.

(** [str(n)] for a Python int, and [str] of a list of ints, as an
    f-string prints them. *)
Definition str_of_int (n : Z) : string := NilZero.string_of_int (Z.to_int n).

Fixpoint join_ints (l : list Z) : string :=
  match l with
  | [] => ""
  | [n] => str_of_int n
  | n :: rest => str_of_int n ++ ", " ++ join_ints rest
  end.

Definition str_of_list (l : list Z) : string := "[" ++ join_ints l ++ "]".

(** ** The arithmetic interface *)

Class Arith (A : Type) : Type := {
  of_int : Z -> A;          (* a Python int used as a float *)
  dec : Z -> Z -> A;        (* the decimal literal  m e  =  m * 10^e *)
  fpi : A;                  (* np.pi *)
  fnan : A;                 (* np.NaN *)
  fadd : A -> A -> A;
  fsub : A -> A -> A;
  fmul : A -> A -> A;
  fdiv : A -> A -> A;       (* NumPy division: total, x/0 is inf or NaN *)
  fneg : A -> A;
  fsqrt : A -> A;           (* np.sqrt *)
  feqb : A -> A -> bool;    (* == *)
  fltb : A -> A -> bool;    (* <  *)
  fleb : A -> A -> bool;    (* <= *)
  isnan : A -> bool
}.

(** Logarithms are not arithmetic of the machine but library functions
    (np.log, np.log10); they are a separate interface. *)
Class Elementary (A : Type) `{Arith A} : Type := {
  flog : A -> A;
  flog10 : A -> A
}.

Infix "+" := fadd : py_scope.
Infix "-" := fsub : py_scope.
Infix "*" := fmul : py_scope.
Infix "/" := fdiv : py_scope.
Notation "- x" := (fneg x) : py_scope.
Notation "x >? y" := (fltb y x) (at level 70, no associativity) : py_scope.
Notation "x <=? y" := (fleb x y) (at level 70, no associativity) : py_scope.
Notation "x == y" := (feqb x y) (at level 70, no associativity) : py_scope.

(** Which values are infinities: a Python float operation that overflows
    to one raises instead of returning it. *)
Class Infinities (A : Type) `{Arith A} : Type := {
  isinf : A -> bool
}.

(** [x ** 2] on a NumPy number or array, evaluated as the product [x * x]
    and total: an overflow gives an infinity.  ([Scalar.pow_2] is [** 2] on
    a Python float.) *)
Definition sq {A} `{Arith A} (x : A) : A := fmul x x.

(** ** Instance 1: IEEE 754 binary64 *)

Module Binary64.

(** A Python int used where a float is expected: the double nearest to it
    (ties to even), for an int of any size within the range of doubles. *)
Definition of_Z (z : Z) : float :=
  SF2Prim (binary_normalize prec emax z 0 false).

(** A decimal literal is the double nearest to [m * 10^e].  For the literals
    of this program [m] and [10^|e|] are exact doubles, so one correctly
    rounded division (or an exact product) gives that nearest double. *)
Definition literal (m e : Z) : float :=
  match e with
  | Z0 => of_Z m
  | Zpos p => of_Z (m * Z.pow_pos 10 p)
  | Zneg p => (of_Z m / of_Z (Z.pow_pos 10 p))%float
  end.

#[export] Instance arith : Arith float := {
  of_int := of_Z;
  dec := literal;
  fpi := literal 3141592653589793 (-15);
  fnan := PrimFloat.nan;
  fadd := PrimFloat.add;
  fsub := PrimFloat.sub;
  fmul := PrimFloat.mul;
  fdiv := PrimFloat.div;
  fneg := PrimFloat.opp;
  fsqrt := PrimFloat.sqrt;
  feqb := PrimFloat.eqb;
  fltb := PrimFloat.ltb;
  fleb := PrimFloat.leb;
  isnan := PrimFloat.is_nan
}.

(** np.log and np.log10 are not operations of the machine; whatever they
    are, they give the second interface. *)
Definition elementary (np_log np_log10 : float -> float) : Elementary float :=
  {| flog := np_log; flog10 := np_log10 |}.

#[export] Instance infinities : Infinities float := {
  isinf := PrimFloat.is_infinity
}.

(** Two values that are equal, or are zeros (of either sign). *)
Definition sf_same (x y : spec_float) : Prop :=
  x = y \/ exists s s', x = S754_zero s /\ y = S754_zero s'.

(** Two doubles that are the same double (also when both are NaN) or that
    Python's [==] holds equal. *)
Definition same_number (x y : float) : Prop :=
  x = y \/ PrimFloat.eqb x y = true.

End Binary64.

(** ** Instance 2: exact reals with an undefined value *)

Module Ideal.

Inductive xreal : Type :=
| Fin (r : R)
| Nan.

Definition lift2 (f : R -> R -> R) (x y : xreal) : xreal :=
  match x, y with
  | Fin a, Fin b => Fin (f a b)
  | _, _ => Nan
  end.

Definition xdiv (x y : xreal) : xreal :=
  match x, y with
  | Fin a, Fin b => if Req_dec_T b 0 then Nan else Fin (a / b)
  | _, _ => Nan
  end.

Definition xneg (x : xreal) : xreal :=
  match x with
  | Fin a => Fin (- a)
  | Nan => Nan
  end.

Definition xsqrt (x : xreal) : xreal :=
  match x with
  | Fin a => if Rlt_dec a 0 then Nan else Fin (sqrt a)
  | Nan => Nan
  end.

(** The decimal logarithm of a positive real. *)
Definition log10 (x : R) : R := (ln x / ln 10)%R.

Definition xlog (x : xreal) : xreal :=
  match x with
  | Fin a => if Rlt_dec 0 a then Fin (ln a) else Nan
  | Nan => Nan
  end.

Definition xlog10 (x : xreal) : xreal :=
  match x with
  | Fin a => if Rlt_dec 0 a then Fin (log10 a) else Nan
  | Nan => Nan
  end.

Definition xcmp (P : R -> R -> Prop) (d : forall a b, {P a b} + {~ P a b})
  (x y : xreal) : bool :=
  match x, y with
  | Fin a, Fin b => if d a b then true else false
  | _, _ => false
  end.

Definition literal (m e : Z) : R :=
  match e with
  | Z0 => IZR m
  | Zpos p => IZR (m * Z.pow_pos 10 p)
  | Zneg p => (IZR m / IZR (Z.pow_pos 10 p))%R
  end.

(** The quantities the documentation of the notebooks names, over the
    reals: the plotting position [i/(N+1)], the reduced variable
    [-ln(-ln P)], the mean and the standard deviation with divisor [N-1]. *)
Definition plotting_position (N i : nat) : R := (INR i / (INR N + 1))%R.

Definition reduced_variable (P : R) : R := (- ln (- ln P))%R.

Definition Rsum (l : list R) : R := fold_left Rplus l 0%R.

Definition sample_mean (ys : list R) : R :=
  (Rsum ys / INR (List.length ys))%R.

Definition sample_std (ys : list R) : R :=
  sqrt (Rsum (map (fun y => (y - sample_mean ys) ^ 2)%R ys)
        / (INR (List.length ys) - 1))%R.

#[export] Instance arith : Arith xreal := {
  of_int := fun z => Fin (IZR z);
  dec := fun m e => Fin (literal m e);
  fpi := Fin PI;
  fnan := Nan;
  fadd := lift2 Rplus;
  fsub := lift2 Rminus;
  fmul := lift2 Rmult;
  fdiv := xdiv;
  fneg := xneg;
  fsqrt := xsqrt;
  feqb := xcmp (@eq R) Req_dec_T;
  fltb := xcmp Rlt Rlt_dec;
  fleb := xcmp Rle Rle_dec;
  isnan := fun x => match x with Nan => true | Fin _ => false end
}.

#[export] Instance elementary : Elementary xreal := {
  flog := xlog;
  flog10 := xlog10
}.

(** No real number is an infinity, and nothing overflows. *)
#[export] Instance infinities : Infinities xreal := {
  isinf := fun _ => false
}.

End Ideal.

(** ** src/en/Deox.py *)

Module Deox.
Section Deox.

Context {A : Type} {num : Arith A} {elem : Elementary A}.
Local Open Scope py_scope.

(** Python's [/] with a Python number (int or float) as the divisor: a zero
    divisor raises.  The temperature reaches the coefficient functions as
    such a number ([T = 1873] in the notebook).  A NumPy zero would give an
    infinity or NaN and no exception; the statements below that concern a
    zero temperature say which kind they are about. *)
Definition truediv (x y : A) : result A :=
  if y == of_int 0 then Raise ZeroDivisionError else Ok (x / y).

Definition logK_Al (T : A) : result A :=
  q <- truediv (of_int (-45300)) T ;;
  Ok (q + dec 1162 (-2)).

(** First order interaction coefficients. *)
Definition e_AlAl (T : A) : result A :=
  truediv (dec 805 (-1)) T.

Definition e_AlO (T : A) : result A :=
  q <- truediv (of_int 9720) T ;;
  Ok (dec 321 (-2) - q).

Definition e_OAl (T : A) : result A :=
  q <- truediv (of_int 5750) T ;;
  Ok (dec 190 (-2) - q).

Definition e_OO (T : A) : result A :=
  q <- truediv (of_int 1750) T ;;
  Ok (dec 76 (-2) - q).

(** Second order interaction coefficients. *)
Definition r_AlAl (T : A) : result A :=
  Ok (of_int 0).

Definition r_AlO (T : A) : result A :=
  q <- truediv (dec 275 3) T ;;
  Ok (of_int (-107) - q).

Definition r_OAl (T : A) : result A :=
  q <- truediv (of_int 25) T ;;
  Ok (dec 33 (-4) - q).

Definition r_OO (T : A) : result A :=
  Ok (of_int 0).

Definition r_AlAlO (T : A) : result A :=
  q <- truediv (dec 1378 (-2)) T ;;
  Ok (dec (-21) (-3) - q).

Definition r_OAlO (T : A) : result A :=
  q <- truediv (dec 3273 2) T ;;
  Ok (dec 1273 (-1) + q).

(** The coefficient functions are module globals, looked up by name at each
    call of [Al_O_eqs].  The record is that name space; [module_globals]
    is the one the module defines. *)
Record InteractionCoefficientSet : Type := {
  get_e_AlAl : A -> result A;
  get_e_AlO : A -> result A;
  get_e_OAl : A -> result A;
  get_e_OO : A -> result A;
  get_r_AlAl : A -> result A;
  get_r_AlO : A -> result A;
  get_r_OAl : A -> result A;
  get_r_OO : A -> result A;
  get_r_AlAlO : A -> result A;
  get_r_OAlO : A -> result A
}.

Definition module_globals : InteractionCoefficientSet := {|
  get_e_AlAl := e_AlAl;
  get_e_AlO := e_AlO;
  get_e_OAl := e_OAl;
  get_e_OO := e_OO;
  get_r_AlAl := r_AlAl;
  get_r_AlO := r_AlO;
  get_r_OAl := r_OAl;
  get_r_OO := r_OO;
  get_r_AlAlO := r_AlAlO;
  get_r_OAlO := r_OAlO
|}.

Definition valid : list Z := [0; 1; 2]%Z.

Definition params : Type := (A * A * A * Z)%type.

(** [log_fAl] and [log_fO] of the branch [order == 1 or order == 2]. *)
Definition first_order (g : InteractionCoefficientSet) (pctO pctAl T : A)
  : result (A * A) :=
  eAlAl <- get_e_AlAl g T ;;
  eAlO <- get_e_AlO g T ;;
  eOAl <- get_e_OAl g T ;;
  eOO <- get_e_OO g T ;;
  Ok (eAlAl * pctAl + eAlO * pctO, eOAl * pctAl + eOO * pctO).

(** The two [+=] of the nested [if order == 2]. *)
Definition second_order (g : InteractionCoefficientSet) (pctO pctAl T : A)
  (log_f : A * A) : result (A * A) :=
  let '(log_fAl, log_fO) := log_f in
  rAlAl <- get_r_AlAl g T ;;
  rAlO <- get_r_AlO g T ;;
  rAlAlO <- get_r_AlAlO g T ;;
  rOAl <- get_r_OAl g T ;;
  rOO <- get_r_OO g T ;;
  rOAlO <- get_r_OAlO g T ;;
  Ok (log_fAl + (rAlAl * sq pctAl + rAlO * sq pctO + rAlAlO * pctAl * pctO),
      log_fO + (rOAl * sq pctAl + rOO * sq pctO + rOAlO * pctAl * pctO)).

Definition Al_O_eqs_in (g : InteractionCoefficientSet) (pctO : A) (ps : params)
  : result A :=
  let '(pctAl, T, aAl2O3, order) := ps in
  log_K <- logK_Al T ;;
  let log_aAl2O3 := flog10 aAl2O3 in
  '(log_fAl, log_fO) <-
    (if (order =? 0)%Z then Ok (of_int 0, of_int 0)
     else if ((order =? 1) || (order =? 2))%Z then
       log_f <- first_order g pctO pctAl T ;;
       if (order =? 2)%Z then second_order g pctO pctAl T log_f
       else Ok log_f
     else
       Raise (ValueError ("order: " ++ str_of_int order ++
                          " is not a valid integer, choose either " ++
                          str_of_list valid))) ;;
  Ok (of_int 2 * log_fAl + of_int 2 * flog10 pctAl
      + of_int 3 * log_fO + of_int 3 * flog10 pctO
      - log_aAl2O3 - log_K).

Definition Al_O_eqs : A -> params -> result A := Al_O_eqs_in module_globals.

(** SciPy's [fsolve(func, x0, args)]: the root finder is not part of the
    repository; it is whatever function of the objective and the initial
    guess the caller's SciPy provides (it may raise: it calls the
    objective). *)
Variable fsolve : (A -> result A) -> A -> result A.

(** The keyword defaults of [calc_pure] are [aInc=1], [x0=1e-8] and
    [order=2]; [data_deox], its only caller, passes every argument. *)
Definition x0_default : A := dec 1 (-8).

Definition calc_pure (func : A -> params -> result A)
  (pctMe T aInc x0 : A) (order : Z) : result A :=
  let ps := (pctMe, T, aInc, order) in
  if existsb (Z.eqb order) valid then
    wO <- fsolve (fun x => func x ps) x0 ;;
    Ok wO
  else
    Raise (ValueError (str_of_int order ++
                       " is not a valid integer, use either: " ++
                       str_of_list valid)).

(** The loop of [data_deox]: one root search per aluminium content, in
    order; the first exception ends it. *)
Fixpoint sweep (func : A -> params -> result A) (T : A) (pcts_M : list A)
  (a_MxOy x0 : A) (order : Z) : result (list A) :=
  match pcts_M with
  | [] => Ok []
  | pct_M :: rest =>
      wO <- calc_pure func pct_M T a_MxOy x0 order ;;
      pcts_O <- sweep func T rest a_MxOy x0 order ;;
      Ok (wO :: pcts_O)
  end.

(** [pcts_O[pcts_O > bound] = np.NaN]: the entries above the bound become
    NaN, the others stay. *)
Definition mask_above (bound : A) (pcts_O : list A) : list A :=
  map (fun v => if v >? bound then fnan else v) pcts_O.

Definition data_deox (func : A -> params -> result A) (T : A) (pcts_M : list A)
  (a_MxOy x0 : A) (order : Z) (bound : A) : result (list A * list A) :=
  pcts_O <- sweep func T pcts_M a_MxOy x0 order ;;
  Ok (pcts_M, mask_above bound pcts_O).

End Deox.
End Deox.

(** ** The NumPy and pandas calls of src/es/EVGumbel-ES.py

    These library functions are not part of the repository.  Each is defined
    by what its documentation says of the call the notebook makes, which is
    also what the text of the notebook states: the data in ascending order
    (lines 36-38), the mean as the sum over [N] (line 115) and the standard
    deviation with the divisor [N - 1] (line 119). *)

Module Lib.
Section Lib.

Context {A : Type} {num : Arith A}.
Local Open Scope py_scope.

(** Elementwise operation on two arrays of one length. *)
Fixpoint map2 {B C : Type} (f : A -> B -> C) (xs : list A) (ys : list B)
  : list C :=
  match xs, ys with
  | x :: xs', y :: ys' => f x y :: map2 f xs' ys'
  | _, _ => []
  end.

Definition notna (s : list A) : list A := filter (fun x => negb (isnan x)) s.

Fixpoint insert (x : A) (l : list A) : list A :=
  match l with
  | [] => [x]
  | y :: rest => if x <=? y then x :: l else y :: insert x rest
  end.

(** [Series.sort_values()]: ascending, missing values last. *)
Definition sort_values (s : list A) : list A :=
  fold_right insert [] (notna s) ++ filter isnan s.

(** [np.linspace(1, n, n)]: the [n] evenly spaced numbers 1, 2, ..., n. *)
Definition linspace_1_n (n : nat) : list A :=
  map (fun i => of_int (Z.of_nat i)) (seq 1 n).

(** The sum of an array, added from left to right.  (NumPy adds pairwise;
    the two orders differ by rounding only.) *)
Definition fsum (s : list A) : A := fold_left fadd s (of_int 0).

(** [Series.mean()]: missing values skipped; NaN when nothing is left. *)
Definition mean (s : list A) : A :=
  let v := notna s in
  let count := List.length v in
  if (count =? 0)%nat then fnan else fsum v / of_int (Z.of_nat count).

(** [Series.std(ddof)]: missing values skipped; the sum of squared
    deviations from the mean over [count - ddof], then the square root; NaN
    when [count <= ddof]. *)
Definition std_ddof (ddof : nat) (s : list A) : A :=
  let v := notna s in
  let count := List.length v in
  if (count <=? ddof)%nat then fnan
  else
    let avg := fsum v / of_int (Z.of_nat count) in
    let sqr := map (fun x => sq (avg - x)) v in
    fsqrt (fsum sqr / of_int (Z.of_nat count - Z.of_nat ddof)).

(** [Series.std()]: pandas' default is [ddof=1]. *)
Definition std (s : list A) : A := std_ddof 1 s.

End Lib.
End Lib.

(** ** src/es/EVGumbel-ES.py *)

Module EVGumbel.
Section EVGumbel.

Context {A : Type} {num : Arith A} {elem : Elementary A}.
Local Open Scope py_scope.

(** One row of the data frame: columns [run], [specimen], [Y]. *)
Record Row : Type := mkRow {
  run : string;
  specimen : Z;
  Y : A
}.

Definition DataFrame : Type := list Row.

(** [df.Y] *)
Definition column_Y (df : DataFrame) : list A := map Y df.

Definition eCDF (df : DataFrame) : list A * list A :=
  let Ysorted := Lib.sort_values (column_Y df) in
  let Nvalues := List.length Ysorted in
  let ecdf := map (fun v => v / of_int (Z.of_nat Nvalues + 1))
                  (Lib.linspace_1_n Nvalues) in
  (Ysorted, ecdf).

(** The [print]s under [verbose] write to the standard output only and are
    left out; the returned pair does not depend on [verbose]. *)
Definition fitEVmom (df : DataFrame) (verbose : bool) : result (A * A) :=
  let Ymean := Lib.mean (column_Y df) in
  let Ystd := Lib.std (column_Y df) in
  let delta := Ystd * fsqrt (of_int 6) / fpi in
  let lamb := Ymean - dec 5772 (-4) * delta in
  Ok (lamb, delta).

(** [gumbel_r.fit] of scipy.stats: returns (loc, scale), or raises. *)
Variable gumbel_r_fit : list A -> result (A * A).

Definition fitEVml (df : DataFrame) (verbose : bool) : result (A * A) :=
  evDist <- gumbel_r_fit (column_Y df) ;;
  let delta := snd evDist in
  let lamb := fst evDist in
  Ok (lamb, delta).

(** [calcSE] on NumPy numbers and arrays, as [gumbelPlot] calls it (one
    entry of the array at a time): every operation is total.
    [Scalar.calcSE] is the same function on Python floats. *)
Definition calcSE (x lamb delta : A) (N : Z) : A :=
  let y := (x - lamb) / delta in
  let SE := delta * fsqrt ((dec 1109 (-3) + dec 514 (-3) * y
                            + dec 608 (-3) * sq y) / of_int N) in
  SE.

Definition calcRedVar (F : A) : A :=
  let y := dec (-10) (-1) * flog (- flog F) in
  y.

(** What [ax.plot] adds to an axes: the two data sequences and the line
    style and marker given as keywords. *)
Record Line : Type := mkLine {
  xdata : list A;
  ydata : list A;
  ls : string;
  marker : string
}.

(** An axes is the list of its lines, in the order they were plotted.
    Labels, grid and annotations carry no geometry and are left out. *)
Definition Axes : Type := list Line.

Definition plot (ax : Axes) (x y : list A) (ls marker : string) : Axes :=
  ax ++ [mkLine x y ls marker].

(** A local name that is read: bound, or never assigned. *)
Definition load (name : string) (slot : option A) : result A :=
  match slot with
  | Some v => Ok v
  | None => Raise (UnboundLocalError name)
  end.

Definition gumbelPlot (df : DataFrame) (gamma delta : option A)
  (ax : option Axes) : result Axes :=
  let ax := match ax with
            | None => []          (* plt.figure().add_subplot(111) *)
            | Some a => a
            end in
  let '(xSorted, ecdf) := eCDF df in
  let redVar := map (fun p => dec (-10) (-1) * flog (- flog p)) ecdf in
  (* if ((gamma==None) or (delta==None)): lamb, delta = fitEVml(df)
     leaves the locals [lamb] and [delta] as follows *)
  '(lamb, delta) <-
    match gamma, delta with
    | Some _, Some d => Ok (None, d)
    | _, _ => '(l, d) <- fitEVml df true ;; Ok (Some l, d)
    end ;;
  lamb <- load "lamb" lamb ;;
  let xML := map (fun y => delta * y + lamb) redVar in
  let ax := plot ax xSorted redVar "" "o" in
  let ax := plot ax xML redVar "-" "" in
  let N := Z.of_nat (List.length df) in
  let SE := map (fun x => calcSE x lamb delta N) xML in
  let xmin := Lib.map2 (fun x se => x - dec 20 (-1) * se) xML SE in
  let xmax := Lib.map2 (fun x se => x + dec 20 (-1) * se) xML SE in
  let ax := plot ax xmin redVar "--" "" in
  let ax := plot ax xmax redVar "--" "" in
  Ok ax.

End EVGumbel.
End EVGumbel.

(** ** [calcSE] on Python floats

    [calcSE] is annotated [(x:float, lamb:float, delta:float, N:int)].
    Called with Python floats, as the annotation admits, the same two lines
    run with Python's own operators: [/] raises ZeroDivisionError on a zero
    divisor (and OverflowError on an int divisor too large for a double),
    and [**] raises OverflowError when the power of a finite number is out
    of range.  [np.sqrt] still returns a NumPy number, so the last product
    raises nothing. *)

Module Scalar.
Section Scalar.

Context {A : Type} {num : Arith A} {inf : Infinities A}.
Local Open Scope py_scope.

(** [y ** 2] on a Python float: the square (the C library's [pow], which
    agrees with the product up to its rounding), or OverflowError when the
    square of a finite number is out of range; an infinity or NaN goes
    through. *)
Definition pow_2 (y : A) : result A :=
  let p := y * y in
  if isinf p && negb (isinf y) then Raise OverflowError else Ok p.

(** A Python int as the operand of a float operation: converted to the
    nearest double, or OverflowError when it is beyond the doubles. *)
Definition float_of_int (n : Z) : result A :=
  let f := of_int n in
  if isinf f then Raise OverflowError else Ok f.

Definition calcSE (x lamb delta : A) (N : Z) : result A :=
  y <- Deox.truediv (x - lamb) delta ;;
  y2 <- pow_2 y ;;
  n <- float_of_int N ;;
  q <- Deox.truediv (dec 1109 (-3) + dec 514 (-3) * y + dec 608 (-3) * y2)
                    n ;;
  let SE := delta * fsqrt q in
  Ok SE.

End Scalar.
End Scalar.

(** ** The sample of the notebook and inputs for the examples *)

Module Sample.
Section Sample.

Context {A : Type} {num : Arith A}.

(** Cell In[8] of EVGumbel-ES.py: the ASTM E2283 data. *)
Definition specimen : list Z :=
  [1; 2; 3; 4; 5; 6; 1; 2; 3; 4; 5; 6;
   1; 2; 3; 4; 5; 6; 1; 2; 3; 4; 5; 6]%Z.

Definition run : list string :=
  ["A"; "A"; "A"; "A"; "A"; "A"; "B"; "B"; "B"; "B"; "B"; "B";
   "C"; "C"; "C"; "C"; "C"; "C"; "D"; "D"; "D"; "D"; "D"; "D"]%string.

Definition Y : list A :=
  [dec 4029 (-2); dec 3724 (-2); dec 2903 (-2); dec 5246 (-2);
   dec 6221 (-2); dec 3398 (-2); dec 3073 (-2); dec 3743 (-2);
   dec 3500 (-2); dec 4482 (-2); dec 6613 (-2); dec 4855 (-2);
   dec 7348 (-2); dec 4479 (-2); dec 7087 (-2); dec 5983 (-2);
   dec 2218 (-2); dec 6432 (-2); dec 7891 (-2); dec 4653 (-2);
   dec 9428 (-2); dec 4915 (-2); dec 8239 (-2); dec 3743 (-2)].

(** Cell In[9]: [pd.DataFrame(list(zip(run, specimen, Y)), ...)]. *)
Definition df : EVGumbel.DataFrame :=
  map (fun rsy => EVGumbel.mkRow (fst (fst rsy)) (snd (fst rsy)) (snd rsy))
      (combine (combine run specimen) Y).

(** A one-row frame. *)
Definition single : EVGumbel.DataFrame :=
  [EVGumbel.mkRow "A" 1 (dec 4029 (-2))].

(** A root finder that stops at once and returns its initial guess. *)
Definition seed_solver (f : A -> result A) (x0 : A) : result A := Ok x0.

(** An objective that is its argument. *)
Definition identity_objective (x : A) (ps : A * A * A * Z) : result A := Ok x.

(** A fitting routine that returns the parameters (50, 10). *)
Definition fixed_fit (data : list A) : result (A * A) :=
  Ok (of_int 50, of_int 10).

End Sample.

(** The measurements as reals. *)
Definition Y_real : list R :=
  [40.29; 37.24; 29.03; 52.46; 62.21; 33.98; 30.73; 37.43;
   35.00; 44.82; 66.13; 48.55; 73.48; 44.79; 70.87; 59.83;
   22.18; 64.32; 78.91; 46.53; 94.28; 49.15; 82.39; 37.43]%R.

End Sample.

(** ** src/pt/Deox-casadi.py

    That notebook writes the equilibrium constant and the coefficients as
    CasADi expressions in one symbol [T].  An expression is modelled by the
    function giving its value at a value of [T]; building and evaluating an
    expression raises nothing, so the division is the total one. *)

Module DeoxCasadi.
Section DeoxCasadi.

Context {A : Type} {num : Arith A}.
Local Open Scope py_scope.

Definition logK_Al (T : A) : A := of_int (-45300) / T + dec 1162 (-2).

Definition e_AlAl (T : A) : A := dec 0 (-2) + dec 805 (-1) / T.

Definition e_AlO (T : A) : A := dec 321 (-2) - of_int 9720 / T.

Definition e_OAl (T : A) : A := dec 190 (-2) - of_int 5750 / T.

Definition e_OO (T : A) : A := dec 76 (-2) - of_int 1750 / T.

Definition r_AlAl (T : A) : A := dec 0 (-1).

Definition r_AlO (T : A) : A := of_int (-107) - dec 275 3 / T.

Definition r_OAl (T : A) : A := dec 33 (-4) - of_int 25 / T.

Definition r_OO (T : A) : A := dec 0 (-1).

Definition r_AlAlO (T : A) : A := dec (-21) (-3) - dec 1378 (-2) / T.

Definition r_OAlO (T : A) : A := dec 1273 (-1) + dec 3273 2 / T.

End DeoxCasadi.
End DeoxCasadi.

(** ** Further inputs for the examples *)

Module Inputs.
Section Inputs.

Context {A : Type} {num : Arith A}.

(** A root finder that evaluates the objective once, at the initial guess,
    and returns that value. *)
Definition probe_solver (f : A -> result A) (x0 : A) : result A := f x0.

(** An objective that divides its argument by the metal content, as Python
    divides. *)
Definition reciprocal_objective (x : A) (ps : A * A * A * Z) : result A :=
  Deox.truediv x (fst (fst (fst ps))).

(** A fitting routine that rejects its data. *)
Definition failing_fit (data : list A) : result (A * A) :=
  Raise (ValueError "The data contains non-finite values.").

(** Small frames: three measurements; the same with the first two rows
    exchanged; the same in thousandths; three equal measurements 0.1; and
    four rows of which one is missing. *)
Definition three_rows : EVGumbel.DataFrame :=
  [EVGumbel.mkRow "A" 1 (dec 4029 (-2));
   EVGumbel.mkRow "A" 2 (dec 3724 (-2));
   EVGumbel.mkRow "A" 3 (dec 2903 (-2))].

Definition three_rows_swapped : EVGumbel.DataFrame :=
  [EVGumbel.mkRow "A" 2 (dec 3724 (-2));
   EVGumbel.mkRow "A" 1 (dec 4029 (-2));
   EVGumbel.mkRow "A" 3 (dec 2903 (-2))].

Definition three_rows_scaled : EVGumbel.DataFrame :=
  [EVGumbel.mkRow "A" 1 (dec 4029 (-5));
   EVGumbel.mkRow "A" 2 (dec 3724 (-5));
   EVGumbel.mkRow "A" 3 (dec 2903 (-5))].

Definition three_equal_tenths : EVGumbel.DataFrame :=
  [EVGumbel.mkRow "A" 1 (dec 1 (-1));
   EVGumbel.mkRow "A" 2 (dec 1 (-1));
   EVGumbel.mkRow "A" 3 (dec 1 (-1))].

Definition rows_with_missing : EVGumbel.DataFrame :=
  [EVGumbel.mkRow "A" 1 (of_int 3);
   EVGumbel.mkRow "A" 2 fnan;
   EVGumbel.mkRow "A" 3 (of_int 1);
   EVGumbel.mkRow "A" 4 (of_int 2)].

End Inputs.
End Inputs.

(** The distribution function of the reduced variable, as the text of the
    notebook gives it (EVGumbel-ES.py, line 283): [F(y) = exp(-exp(-y))]. *)
Definition gumbel_cdf (y : R) : R := exp (- exp (- y)).

(** The comparison [<=] is total on the numbers that are not NaN. *)
Class OrderLaws (A : Type) `{Arith A} : Prop := {
  fleb_total : forall x y : A,
    isnan x = false -> isnan y = false -> fleb x y = false -> fleb y x = true
}.

(** ** Laws of the arithmetic that the order-free statements rest on

    What IEEE 754 says of NaN and of comparison; both instances satisfy
    them ([Binary64Facts.binary64_laws], [IdealFacts.ideal_laws]). *)

Class ArithLaws (A : Type) `{Arith A} : Prop := {
  isnan_fnan : isnan fnan = true;
  fnan_not_gt : forall b : A, fltb b fnan = false;
  not_gt_le : forall v b : A,
    fltb b v = false -> isnan v = false -> isnan b = false -> fleb v b = true;
  mul_fnan_l : forall x : A, fmul fnan x = fnan;
  mul_fnan_r : forall x : A, fmul x fnan = fnan;
  div_fnan_l : forall x : A, fdiv fnan x = fnan;
  sub_fnan_r : forall x : A, fsub x fnan = fnan
}.

(** * Proofs *)

(** ** The two instances are lawful *)

Module Binary64Facts.
Import Binary64.

Lemma SFcompare_antisym (x y : spec_float) :
  SFcompare x y = option_map CompOpp (SFcompare y x).
Proof.
  destruct x as [sx|sx| |sx mx ex], y as [sy|sy| |sy my ey]; simpl;
    try reflexivity;
    try (destruct sx; reflexivity); try (destruct sy; reflexivity);
    try (destruct sx, sy; reflexivity).
  destruct sx, sy; simpl; try reflexivity;
    rewrite (Z.compare_antisym ey ex);
    destruct (ey ?= ex)%Z eqn:E; simpl; try reflexivity.
  all: change (PosDef.Pos.compare_cont Eq ?a ?b) with (Pos.compare a b).
  all: rewrite (Pos.compare_antisym my mx);
    try rewrite CompOpp_involutive; reflexivity.
Qed.

Lemma Prim2SF_nan : Prim2SF PrimFloat.nan = S754_nan.
Proof. reflexivity. Qed.

Lemma is_nan_false (x : float) :
  PrimFloat.is_nan x = false -> Prim2SF x <> S754_nan.
Proof.
  unfold PrimFloat.is_nan. rewrite FloatAxioms.eqb_spec. intros E N.
  rewrite N in E. discriminate E.
Qed.

Lemma SFcompare_defined (x y : spec_float) :
  x <> S754_nan -> y <> S754_nan -> SFcompare x y <> None.
Proof.
  destruct x, y; simpl; congruence.
Qed.

#[export] Instance binary64_laws : ArithLaws float.
Proof.
  constructor; simpl.
  - reflexivity.
  - intro b. rewrite FloatAxioms.ltb_spec, Prim2SF_nan. unfold SFltb.
    destruct (Prim2SF b); reflexivity.
  - intros v b G Nv Nb.
    rewrite FloatAxioms.ltb_spec in G. rewrite FloatAxioms.leb_spec.
    apply is_nan_false in Nv. apply is_nan_false in Nb.
    unfold SFltb in G. unfold SFleb.
    rewrite SFcompare_antisym.
    pose proof (SFcompare_defined _ _ Nb Nv) as D.
    destruct (SFcompare (Prim2SF b) (Prim2SF v)) as [[ | | ]|];
      simpl; congruence.
  - intro x. apply Prim2SF_inj.
    rewrite FloatAxioms.mul_spec, Prim2SF_nan. reflexivity.
  - intro x. apply Prim2SF_inj.
    rewrite FloatAxioms.mul_spec, Prim2SF_nan.
    destruct (Prim2SF x); reflexivity.
  - intro x. apply Prim2SF_inj.
    rewrite FloatAxioms.div_spec, Prim2SF_nan. reflexivity.
  - intro x. apply Prim2SF_inj.
    rewrite FloatAxioms.sub_spec, Prim2SF_nan.
    destruct (Prim2SF x); reflexivity.
Qed.

End Binary64Facts.

Module IdealFacts.
Import Ideal.

#[export] Instance ideal_laws : ArithLaws xreal.
Proof.
  constructor; simpl.
  - reflexivity.
  - intros [b|]; reflexivity.
  - intros [v|] [b|] G Nv Nb; try discriminate.
    unfold xcmp in *.
    destruct (Rlt_dec b v); try discriminate.
    destruct (Rle_dec v b); [reflexivity | lra].
  - reflexivity.
  - intros [x|]; reflexivity.
  - reflexivity.
  - intros [x|]; reflexivity.
Qed.

End IdealFacts.

(** ** Statements that hold in every arithmetic *)

Section Generic.

Context {A : Type} {num : Arith A} {elem : Elementary A}.
Local Open Scope py_scope.
Import Deox EVGumbel.

Lemma valid_spec (order : Z) :
  existsb (Z.eqb order) valid = false <-> ~ In order valid.
Proof.
  unfold valid; simpl. rewrite !orb_false_iff, !Z.eqb_neq. intuition lia.
Qed.

Lemma str_of_valid : str_of_list valid = "[0, 1, 2]"%string.
Proof. reflexivity. Qed.

(** C2.  For an order outside {0, 1, 2} both functions raise a ValueError
    whose message holds the order and the list [0, 1, 2], and nothing is
    computed for that order: [calc_pure] raises at every temperature,
    whatever the root finder and the objective are (neither is called), and
    [Al_O_eqs] raises at every temperature other than zero (the contract
    wants [T > 0]), whatever the coefficient functions are (no coefficient
    and no residual is evaluated).  For a temperature other than zero the
    two kinds of number divide alike, so this holds for a Python and for a
    NumPy temperature. *)
Theorem invalid_order_raises
  (fsolve : (A -> result A) -> A -> result A)
  (func : A -> params -> result A)
  (pctO pctAl T aAl2O3 x0 : A) (order : Z) :
  ~ In order [0; 1; 2]%Z ->
  calc_pure fsolve func pctAl T aAl2O3 x0 order
    = Raise (ValueError (str_of_int order ++
                         " is not a valid integer, use either: [0, 1, 2]"))
  /\ ((T == of_int 0) = false ->
      Al_O_eqs pctO (pctAl, T, aAl2O3, order)
      = Raise (ValueError ("order: " ++ str_of_int order ++
                           " is not a valid integer, choose either [0, 1, 2]"))
      /\ forall g : InteractionCoefficientSet,
           Al_O_eqs_in g pctO (pctAl, T, aAl2O3, order)
           = Raise (ValueError ("order: " ++ str_of_int order ++
                      " is not a valid integer, choose either [0, 1, 2]"))).
Proof.
  intros Hbad. split.
  - unfold calc_pure.
    destruct (existsb (Z.eqb order) valid) eqn:E.
    + exfalso. apply not_false_iff_true in E. apply E, valid_spec, Hbad.
    + rewrite str_of_valid. reflexivity.
  - intro HT.
    assert (forall g : InteractionCoefficientSet,
               Al_O_eqs_in g pctO (pctAl, T, aAl2O3, order)
               = Raise (ValueError ("order: " ++ str_of_int order ++
                          " is not a valid integer, choose either [0, 1, 2]")))
      as G.
    { intro g. unfold Al_O_eqs_in, logK_Al, truediv.
      rewrite HT. simpl.
      assert (order <> 0 /\ order <> 1 /\ order <> 2)%Z as (N0 & N1 & N2)
        by (simpl in Hbad; intuition lia).
      apply Z.eqb_neq in N0, N1, N2. rewrite N0, N1, N2. simpl.
      rewrite str_of_valid. reflexivity. }
    split; [apply G | exact G].
Qed.

(** C10.  When the caller gives both [gamma] and [delta], the fit is not
    run (the outcome is the same for every fitting routine, also one that
    would raise) and reading [lamb] raises UnboundLocalError; and in any
    call, the value given as [gamma] does not enter the outcome. *)
Theorem gumbelPlot_supplied_parameters
  (gumbel_r_fit : list A -> result (A * A))
  (df : DataFrame) (gamma delta : A) (ax : option Axes) :
  gumbelPlot gumbel_r_fit df (Some gamma) (Some delta) ax
    = Raise (UnboundLocalError "lamb")
  /\ forall (gamma' : A) (delta' : option A),
       gumbelPlot gumbel_r_fit df (Some gamma') delta' ax
       = gumbelPlot gumbel_r_fit df (Some gamma) delta' ax.
Proof.
  split.
  - unfold gumbelPlot. destruct (eCDF df). reflexivity.
  - intros gamma' delta'. unfold gumbelPlot.
    destruct (eCDF df), delta'; reflexivity.
Qed.

Context {lawful : ArithLaws A}.

Lemma mask_above_not_gt (b : A) (raw : list A) :
  Forall (fun v' => (v' >? b) = false) (mask_above b raw).
Proof.
  unfold mask_above. apply Forall_forall. intros v' Hin.
  apply in_map_iff in Hin. destruct Hin as (v & <- & _).
  destruct (v >? b) eqn:E; [apply fnan_not_gt | exact E].
Qed.

Lemma mask_above_le_or_nan (b : A) (raw : list A) :
  isnan b = false ->
  Forall (fun v' => (v' <=? b) = true \/ isnan v' = true) (mask_above b raw).
Proof.
  intro Nb. unfold mask_above. apply Forall_forall. intros v' Hin.
  apply in_map_iff in Hin. destruct Hin as (v & <- & _).
  destruct (v >? b) eqn:E.
  - right. apply isnan_fnan.
  - destruct (isnan v) eqn:Nv; [right; reflexivity | left].
    apply not_gt_le; assumption.
Qed.

Lemma mask_above_pointwise (b : A) (raw : list A) :
  Forall2 (fun v v' => if v >? b then v' = fnan else v' = v)
          raw (mask_above b raw).
Proof.
  induction raw as [|v raw IH]; simpl; constructor.
  - destruct (v >? b); reflexivity.
  - exact IH.
Qed.

(** C3.  When the root searches return [raw], [data_deox] returns the
    aluminium contents and [raw] masked: no returned oxygen content is
    greater than the bound; a content above the bound becomes NaN and every
    other content is returned as it is (nothing is set to the bound); and,
    the bound being a number, every returned content is at most the bound
    or NaN. *)
Theorem data_deox_bound
  (fsolve : (A -> result A) -> A -> result A)
  (func : A -> params -> result A)
  (T : A) (pcts_M : list A) (a_MxOy x0 : A) (order : Z) (bound : A)
  (raw : list A) :
  sweep fsolve func T pcts_M a_MxOy x0 order = Ok raw ->
  exists pcts_O : list A,
    data_deox fsolve func T pcts_M a_MxOy x0 order bound
      = Ok (pcts_M, pcts_O)
    /\ Forall (fun v' => (v' >? bound) = false) pcts_O
    /\ Forall2 (fun v v' => if v >? bound then v' = fnan else v' = v)
               raw pcts_O
    /\ (isnan bound = false ->
        Forall (fun v' => (v' <=? bound) = true \/ isnan v' = true) pcts_O).
Proof.
  intro Hs. exists (mask_above bound raw). repeat split.
  - unfold data_deox. rewrite Hs. reflexivity.
  - apply mask_above_not_gt.
  - apply mask_above_pointwise.
  - apply mask_above_le_or_nan.
Qed.

Lemma notna_length (s : list A) :
  (List.length (Lib.notna s) <= List.length s)%nat.
Proof. unfold Lib.notna. apply filter_length_le. Qed.

(** C4, as the code has it.  On a sample of at most one measurement
    [fitEVmom] raises nothing: it returns NaN for both parameters. *)
Theorem fitEVmom_small_sample (df : DataFrame) (verbose : bool) :
  (List.length df <= 1)%nat ->
  fitEVmom df verbose = Ok (fnan, fnan).
Proof.
  intro Hn. unfold fitEVmom, Lib.std, Lib.std_ddof.
  pose proof (notna_length (column_Y df)) as Hc.
  unfold column_Y in *. rewrite length_map in Hc.
  replace (List.length (Lib.notna (map Y df)) <=? 1)%nat with true
    by (symmetry; apply Nat.leb_le; lia).
  rewrite mul_fnan_l, div_fnan_l, mul_fnan_r, sub_fnan_r. reflexivity.
Qed.

End Generic.

(** ** Statements in exact real arithmetic *)

Module IdealProofs.
Import Ideal Deox EVGumbel.
Local Open Scope R_scope.

Lemma fin_div (a b : R) : b <> 0 -> fdiv (Fin a) (Fin b) = Fin (a / b).
Proof.
  intro Hb. simpl. destruct (Req_dec_T b 0); [contradiction | reflexivity].
Qed.

Lemma fin_sqrt (a : R) : 0 <= a -> fsqrt (Fin a) = Fin (sqrt a).
Proof.
  intro Ha. simpl. destruct (Rlt_dec a 0); [lra | reflexivity].
Qed.

Lemma fin_log (a : R) : 0 < a -> flog (Fin a) = Fin (ln a).
Proof.
  intro Ha. simpl. destruct (Rlt_dec 0 a); [reflexivity | contradiction].
Qed.

Lemma fin_log10 (a : R) : 0 < a -> flog10 (Fin a) = Fin (log10 a).
Proof.
  intro Ha. simpl. destruct (Rlt_dec 0 a); [reflexivity | contradiction].
Qed.

Lemma truediv_fin (a T : R) :
  T <> 0 -> truediv (Fin a) (Fin T) = Ok (Fin (a / T)).
Proof.
  intro HT. unfold truediv. simpl.
  destruct (Req_dec_T T 0); [contradiction | reflexivity].
Qed.

Lemma truediv_zero (a : xreal) : truediv a (Fin 0) = Raise ZeroDivisionError.
Proof.
  unfold truediv. simpl. destruct (Req_dec_T 0 0); [reflexivity | lra].
Qed.

(** C5.  At every temperature [T > 0] no coefficient function raises, and
    each returns the value of its closed formula in [T], with the literal
    constants of the source; [logK_Al(T)] is [-45300/T + 11.62].  Each is a
    function of the temperature alone: it has no other argument and there
    is no state it could read. *)
Theorem coefficient_formulas (T : R) :
  0 < T ->
  logK_Al (Fin T) = Ok (Fin (-45300 / T + 11.62))
  /\ e_AlAl (Fin T) = Ok (Fin (80.5 / T))
  /\ e_AlO (Fin T) = Ok (Fin (3.21 - 9720 / T))
  /\ e_OAl (Fin T) = Ok (Fin (1.90 - 5750 / T))
  /\ e_OO (Fin T) = Ok (Fin (0.76 - 1750 / T))
  /\ r_AlAl (Fin T) = Ok (Fin 0)
  /\ r_AlO (Fin T) = Ok (Fin (-107 - 2.75e5 / T))
  /\ r_OAl (Fin T) = Ok (Fin (0.0033 - 25 / T))
  /\ r_OO (Fin T) = Ok (Fin 0)
  /\ r_AlAlO (Fin T) = Ok (Fin (-0.021 - 13.78 / T))
  /\ r_OAlO (Fin T) = Ok (Fin (127.3 + 3.273e5 / T)).
Proof.
  intro HT. assert (T <> 0) as HT0 by lra.
  unfold logK_Al, e_AlAl, e_AlO, e_OAl, e_OO, r_AlAl, r_AlO, r_OAl, r_OO,
    r_AlAlO, r_OAlO.
  cbn [of_int dec arith]. rewrite !truediv_fin by exact HT0.
  repeat split; simpl; do 2 f_equal; unfold literal; simpl; lra.
Qed.

(** C1.  With [order = 0] and positive contents and temperature and an
    activity in (0, 1], the residual is
    [2 log10 pctAl + 3 log10 pctO - log10 aAl2O3 - logK_Al(T)], for the
    module's coefficient functions and for any other set of them: no
    coefficient enters. *)
Theorem Al_O_eqs_order_0 (pctO pctAl T aAl2O3 : R) :
  0 < pctAl -> 0 < pctO -> 0 < T -> 0 < aAl2O3 <= 1 ->
  let eps := 2 * log10 pctAl + 3 * log10 pctO - log10 aAl2O3
             - (-45300 / T + 11.62) in
  Al_O_eqs (Fin pctO) (Fin pctAl, Fin T, Fin aAl2O3, 0%Z) = Ok (Fin eps)
  /\ forall g : InteractionCoefficientSet,
       Al_O_eqs_in g (Fin pctO) (Fin pctAl, Fin T, Fin aAl2O3, 0%Z)
       = Ok (Fin eps).
Proof.
  intros HAl HO HT [Ha _] eps.
  assert (forall g : InteractionCoefficientSet,
             Al_O_eqs_in g (Fin pctO) (Fin pctAl, Fin T, Fin aAl2O3, 0%Z)
             = Ok (Fin eps)) as G.
  { intro g. unfold Al_O_eqs_in, logK_Al.
    cbn [of_int dec arith]. rewrite truediv_fin by lra.
    rewrite !fin_log10 by assumption. simpl.
    do 2 f_equal. unfold eps, literal. simpl. lra. }
  split; [apply G | exact G].
Qed.

Lemma calcSE_fin (x lamb delta : R) (N : Z) :
  0 < delta -> 0 < IZR N ->
  let y := (x - lamb) / delta in
  calcSE (Fin x) (Fin lamb) (Fin delta) N
  = Fin (delta * sqrt ((1.109 + 0.514 * y + 0.608 * y ^ 2) / IZR N)).
Proof.
  intros Hd HN y. unfold calcSE, sq.
  cbn [of_int dec arith fsub fmul fadd lift2].
  rewrite fin_div by lra. cbn [fmul fadd arith lift2].
  rewrite fin_div by lra. fold y.
  assert (0 <= (literal 1109 (-3) + literal 514 (-3) * y
                + literal 608 (-3) * (y * y)) / IZR N) as Hq.
  { apply Rlt_le, Rdiv_lt_0_compat; [ | exact HN].
    unfold literal; simpl. nra. }
  rewrite fin_sqrt by exact Hq. cbn [fmul arith lift2].
  do 3 f_equal. unfold literal; simpl. lra.
Qed.




(** *** The empirical distribution *)

Lemma notna_fin (ys : list R) : Lib.notna (map Fin ys) = map Fin ys.
Proof.
  unfold Lib.notna.
  induction ys as [|y ys IH]; simpl; [reflexivity | f_equal; exact IH].
Qed.

Lemma filter_isnan_fin (ys : list R) : filter isnan (map Fin ys) = [].
Proof. induction ys as [|y ys IH]; simpl; [reflexivity | exact IH]. Qed.

Lemma insert_fin (y : R) (zs : list R) :
  exists zs' : list R,
    Lib.insert (Fin y) (map Fin zs) = map Fin zs'
    /\ Permutation (y :: zs) zs'
    /\ (Sorted Rle zs -> Sorted Rle zs')
    /\ (forall a, a <= y -> HdRel Rle a zs -> HdRel Rle a zs').
Proof.
  induction zs as [|z zs IH]; simpl.
  - exists [y]. repeat split; auto.
  - destruct (Rle_dec y z) as [Hle|Hgt].
    + exists (y :: z :: zs). repeat split; auto.
    + destruct IH as (zs' & E & P & S & Hd). rewrite E.
      exists (z :: zs'). repeat split.
      * rewrite perm_swap. apply perm_skip, P.
      * intro Sz. inversion Sz as [|? ? Sz' Hz]; subst.
        constructor; [apply S, Sz' | apply Hd; [lra | exact Hz]].
      * intros a _ Ha. inversion Ha; subst. constructor. assumption.
Qed.

Lemma sort_fin (ys : list R) :
  exists zs : list R,
    Lib.sort_values (map Fin ys) = map Fin zs
    /\ Permutation ys zs /\ Sorted Rle zs.
Proof.
  unfold Lib.sort_values. rewrite notna_fin, filter_isnan_fin, app_nil_r.
  induction ys as [|y ys IH]; simpl.
  - exists []. repeat split; auto.
  - destruct IH as (zs & E & P & S). rewrite E.
    destruct (insert_fin y zs) as (zs' & E' & P' & S' & _).
    exists zs'. repeat split; auto.
    rewrite <- P'. apply perm_skip, P.
Qed.

Lemma eCDF_fin (df : DataFrame) (ys : list R) :
  column_Y df = map Fin ys ->
  let N := List.length df in
  exists zs : list R,
    eCDF df = (map Fin zs,
               map (fun i => Fin (plotting_position N i)) (seq 1 N))
    /\ Permutation ys zs /\ Sorted Rle zs.
Proof.
  intros HY N. unfold eCDF. rewrite HY.
  destruct (sort_fin ys) as (zs & E & P & S). rewrite E.
  exists zs. repeat split; auto.
  assert (List.length (map Fin zs) = N) as HN.
  { rewrite length_map, <- (Permutation_length P).
    unfold N. rewrite <- (length_map Y df). fold (column_Y df).
    rewrite HY, length_map. reflexivity. }
  rewrite HN. f_equal.
  unfold Lib.linspace_1_n. rewrite map_map. apply map_ext. intro i.
  cbn [of_int arith]. rewrite plus_IZR, <- !INR_IZR_INZ.
  apply fin_div. pose proof (pos_INR N). lra.
Qed.

Lemma plotting_position_bounds (N i : nat) :
  (1 <= i <= N)%nat -> 0 < plotting_position N i < 1.
Proof.
  intros [H1 HN]. unfold plotting_position.
  apply lt_INR in H1 as H1'. apply le_INR in HN as HN'. simpl in H1'.
  assert (0 < INR N + 1) as Hp by lra.
  split.
  - apply Rdiv_lt_0_compat; lra.
  - apply (Rmult_lt_reg_r (INR N + 1)); [exact Hp | ].
    unfold Rdiv. rewrite Rmult_assoc, Rinv_l by lra. lra.
Qed.

Lemma plotting_position_increasing (N i j : nat) :
  (i < j)%nat -> plotting_position N i < plotting_position N j.
Proof.
  intro Hij. unfold plotting_position, Rdiv.
  apply lt_INR in Hij. pose proof (pos_INR N).
  apply Rmult_lt_compat_r; [apply Rinv_0_lt_compat; lra | exact Hij].
Qed.

(** C6.  For a sample of [N] measurements, [eCDF] returns the measurements
    in ascending order (a sorted permutation of them) with the
    probabilities [i/(N+1)], i = 1..N; these are increasing in [i], lie
    strictly between 0 and 1, and the last is [N/(N+1) < 1]. *)
Theorem eCDF_weibull (df : DataFrame) (ys : list R) :
  column_Y df = map Fin ys ->
  let N := List.length df in
  let P := fun i : nat => INR i / (INR N + 1) in
  (exists zs : list R,
      eCDF df = (map Fin zs, map (fun i => Fin (P i)) (seq 1 N))
      /\ Permutation ys zs /\ Sorted Rle zs)
  /\ (forall i, (1 <= i <= N)%nat -> 0 < P i < 1)
  /\ (forall i j, (1 <= i)%nat -> (i < j)%nat -> (j <= N)%nat -> P i < P j)
  /\ P N < 1.
Proof.
  intros HY N P. split; [ | split; [ | split]].
  - exact (eCDF_fin df ys HY).
  - intros i Hi. exact (plotting_position_bounds N i Hi).
  - intros i j _ Hij _. exact (plotting_position_increasing N i j Hij).
  - unfold P. pose proof (pos_INR N).
    apply (Rmult_lt_reg_r (INR N + 1)); [lra | ].
    unfold Rdiv. rewrite Rmult_assoc, Rinv_l by lra. lra.
Qed.

(** *** The method of moments *)

Lemma fold_fadd_fin (ys : list R) (acc : R) :
  fold_left fadd (map Fin ys) (Fin acc) = Fin (fold_left Rplus ys acc).
Proof.
  revert acc. induction ys as [|y ys IH]; intro acc; simpl;
    [reflexivity | apply IH].
Qed.

Lemma fsum_fin (ys : list R) : Lib.fsum (map Fin ys) = Fin (Rsum ys).
Proof. unfold Lib.fsum, Rsum. apply fold_fadd_fin. Qed.

Lemma fold_Rplus_nonneg (l : list R) (acc : R) :
  0 <= acc -> Forall (fun t => 0 <= t) l -> 0 <= fold_left Rplus l acc.
Proof.
  revert acc. induction l as [|t l IH]; intros acc Ha Hl; simpl.
  - exact Ha.
  - inversion Hl; subst. apply IH; [lra | assumption].
Qed.

Lemma Rsum_squares_nonneg (m : R) (ys : list R) :
  0 <= Rsum (map (fun y => (y - m) ^ 2) ys).
Proof.
  unfold Rsum. apply fold_Rplus_nonneg; [lra | ].
  apply Forall_forall. intros t Ht. apply in_map_iff in Ht.
  destruct Ht as (y & <- & _). apply pow2_ge_0.
Qed.

Lemma mean_fin (ys : list R) :
  ys <> [] -> Lib.mean (map Fin ys) = Fin (sample_mean ys).
Proof.
  intro Hne. unfold Lib.mean, sample_mean.
  rewrite notna_fin, length_map, fsum_fin.
  destruct ys as [|y ys]; [contradiction | ].
  cbn [Nat.eqb List.length of_int arith]. rewrite <- INR_IZR_INZ.
  apply fin_div. apply not_0_INR. discriminate.
Qed.

Lemma std_fin (ys : list R) :
  (2 <= List.length ys)%nat -> Lib.std (map Fin ys) = Fin (sample_std ys).
Proof.
  intro Hn. unfold Lib.std, Lib.std_ddof, sample_std.
  rewrite notna_fin, length_map, fsum_fin.
  replace (List.length ys <=? 1)%nat with false
    by (symmetry; apply Nat.leb_gt; lia).
  cbn [of_int arith].
  assert (INR (List.length ys) <> 0) as Hc by (apply not_0_INR; lia).
  rewrite <- INR_IZR_INZ, fin_div by exact Hc.
  fold (sample_mean ys). set (m := sample_mean ys).
  rewrite map_map.
  rewrite (map_ext _ (fun y => Fin ((y - m) ^ 2))), <- (map_map _ Fin)
    by (intro y; unfold sq; simpl; f_equal; ring).
  rewrite fsum_fin.
  assert (IZR (Z.of_nat (List.length ys) - Z.of_nat 1)
          = INR (List.length ys) - 1) as Hd
    by (rewrite minus_IZR, <- !INR_IZR_INZ; reflexivity).
  rewrite Hd.
  assert (1 < INR (List.length ys)) as Hgt
    by (apply (lt_INR 1); lia).
  rewrite fin_div by lra.
  apply fin_sqrt.
  apply Rmult_le_pos; [apply Rsum_squares_nonneg | ].
  apply Rlt_le, Rinv_0_lt_compat. lra.
Qed.

(** C7.  For a sample of [N >= 2] measurements [fitEVmom] returns, without
    raising, the scale [delta = s sqrt(6) / pi] and the location
    [lambda = mean - 0.5772 delta], where [s] is the standard deviation
    with divisor [N - 1]; and [delta > 0] whenever [s > 0]. *)
Theorem fitEVmom_moments (df : DataFrame) (ys : list R) (verbose : bool) :
  column_Y df = map Fin ys ->
  (2 <= List.length ys)%nat ->
  let s := sample_std ys in
  let delta := s * sqrt 6 / PI in
  let lamb := sample_mean ys - 0.5772 * delta in
  fitEVmom df verbose = Ok (Fin lamb, Fin delta)
  /\ (0 < s -> 0 < delta).
Proof.
  intros HY Hn s delta lamb. split.
  - unfold fitEVmom. rewrite HY, std_fin by exact Hn.
    rewrite mean_fin by (destruct ys; [simpl in Hn; lia | discriminate]).
    fold s. cbn [of_int dec fpi arith].
    rewrite fin_sqrt by lra. cbn [fmul arith lift2].
    rewrite fin_div by apply PI_neq0.
    fold delta. reflexivity.
  - intro Hs. unfold delta.
    apply Rdiv_lt_0_compat; [ | apply PI_RGT_0].
    apply Rmult_lt_0_compat; [exact Hs | apply sqrt_lt_R0; lra].
Qed.

(** *** The plot geometry *)

Lemma map2_map {X B C D : Type} (f : B -> C -> D) (a : X -> B) (b : X -> C)
  (l : list X) :
  Lib.map2 f (map a l) (map b l) = map (fun i => f (a i) (b i)) l.
Proof.
  induction l as [|i l IH]; simpl; [reflexivity | rewrite IH; reflexivity].
Qed.

Lemma redVar_fin (P : R) :
  0 < P < 1 ->
  fmul (dec (-10) (-1)) (flog (fneg (flog (Fin P))))
  = Fin (reduced_variable P).
Proof.
  intros [H0 H1].
  assert (ln P < 0) as Hl by (rewrite <- ln_1; apply ln_increasing; lra).
  rewrite fin_log by exact H0. cbn [fneg arith xneg].
  rewrite fin_log by lra. cbn [dec fmul arith lift2].
  f_equal. unfold reduced_variable, literal. simpl. lra.
Qed.


End IdealProofs.

(** ** Statements in binary64

    Where a statement of the previous section says "exactly", the same
    holds of the doubles that Python computes. *)

Module Binary64Proofs.
Import Binary64 Binary64Facts Deox EVGumbel.
Local Open Scope float_scope.

Lemma finite_cases (x : float) :
  PrimFloat.is_finite x = true ->
  (exists s, Prim2SF x = S754_zero s)
  \/ (exists s m e, Prim2SF x = S754_finite s m e).
Proof.
  unfold PrimFloat.is_finite, PrimFloat.is_infinity, PrimFloat.is_nan.
  rewrite !FloatAxioms.eqb_spec, FloatAxioms.abs_spec.
  destruct (Prim2SF x) as [s|s| |s m e]; intro Hf.
  - left; eauto.
  - destruct s; discriminate Hf.
  - discriminate Hf.
  - right; eauto.
Qed.

Lemma sub_self (x : float) : PrimFloat.is_finite x = true -> x - x = 0.
Proof.
  intro Hf. apply Prim2SF_inj. rewrite FloatAxioms.sub_spec.
  destruct (finite_cases x Hf) as [[s E] | (s & m & e & E)]; rewrite E.
  - destruct s; reflexivity.
  - unfold SF64sub, SFsub. rewrite Z.sub_diag. reflexivity.
Qed.

Lemma zero_div_pos (d : float) : (0 <? d) = true -> 0 / d = 0.
Proof.
  rewrite FloatAxioms.ltb_spec. intro Hd. apply Prim2SF_inj.
  rewrite FloatAxioms.div_spec.
  change (Prim2SF 0) with (S754_zero false) in *.
  destruct (Prim2SF d) as [s|s| |s m e]; try discriminate Hd;
    destruct s; try discriminate Hd; reflexivity.
Qed.

(** X20.  The standard error at [x = lambda] in binary64, on NumPy
    numbers as [gumbelPlot] passes them: for a finite [lambda], [delta > 0]
    and a sample size [1 <= N < 2^63] (a [len]), the double returned is
    [delta * sqrt(1.109 / N)], bit for bit. *)
Lemma calcSE_at_location_binary64 (lamb delta : float) (N : Z) :
  PrimFloat.is_finite lamb = true -> (0 <? delta) = true ->
  (1 <= N < 2 ^ 63)%Z ->
  calcSE lamb lamb delta N = delta * PrimFloat.sqrt (1.109 / of_Z N).
Proof.
  intros Hl Hd _. unfold calcSE, sq.
  cbn [fsub fdiv fmul fadd fsqrt of_int dec arith].
  rewrite (sub_self lamb Hl), (zero_div_pos delta Hd).
  reflexivity.
Qed.

Lemma sf_same_add_zero (u : spec_float) :
  sf_same (SF64add (SF64add (S754_zero false) u) (S754_zero false)) u.
Proof.
  destruct u as [s|s| |s m e]; simpl; try (left; reflexivity).
  destruct s; simpl; right; eauto.
Qed.

Lemma sf_same_add (x x' v : spec_float) :
  sf_same x x' -> sf_same (SF64add x v) (SF64add x' v).
Proof.
  intros [-> | (s & s' & -> & ->)]; [left; reflexivity | ].
  destruct v as [sv|sv| |sv m e]; try (left; reflexivity).
  right. destruct s, s', sv; simpl; eauto.
Qed.

Lemma sf_same_sub (x x' v : spec_float) :
  sf_same x x' -> sf_same (SF64sub x v) (SF64sub x' v).
Proof.
  intros [-> | (s & s' & -> & ->)]; [left; reflexivity | ].
  destruct v as [sv|sv| |sv m e]; try (left; reflexivity).
  right. destruct s, s', sv; simpl; eauto.
Qed.

Lemma sf_same_number (x y : float) :
  sf_same (Prim2SF x) (Prim2SF y) -> same_number x y.
Proof.
  intros [E | (s & s' & E & E')].
  - left. apply Prim2SF_inj, E.
  - right. rewrite FloatAxioms.eqb_spec, E, E'. reflexivity.
Qed.

(** X21.  The order-0 residual in binary64, for whatever np.log10 is and
    any coefficient functions: at a temperature other than zero it is the
    double [2 log10 pctAl + 3 log10 pctO - log10 aAl2O3 - logK_Al(T)], up to
    the sign of a zero. *)
Lemma Al_O_eqs_order_0_binary64 (np_log np_log10 : float -> float)
  (g : @InteractionCoefficientSet float)
  (pctO pctAl T aAl2O3 : float) :
  (T =? 0) = false ->
  exists eps : float,
    @Al_O_eqs_in float arith (elementary np_log np_log10) g
                 pctO (pctAl, T, aAl2O3, 0%Z) = Ok eps
    /\ same_number eps
         (2 * np_log10 pctAl + 3 * np_log10 pctO - np_log10 aAl2O3
          - (-45300 / T + 11.62)).
Proof.
  intro HT. unfold Al_O_eqs_in, logK_Al, truediv.
  change (feqb T (of_int 0)) with (T =? 0). rewrite HT. cbn [bind Z.eqb].
  eexists. split; [reflexivity | ].
  apply sf_same_number.
  cbn [fadd fsub fmul fdiv of_int dec arith flog10 elementary].
  change (of_Z 2 * of_Z 0) with 0.
  change (of_Z 3 * of_Z 0) with 0.
  rewrite !FloatAxioms.sub_spec, !FloatAxioms.add_spec.
  change (Prim2SF 0) with (S754_zero false).
  apply sf_same_sub, sf_same_sub, sf_same_add, sf_same_add_zero.
Qed.

End Binary64Proofs.

(** ** The definitions evaluated in binary64 *)

Module Binary64Examples.
Import Binary64 Binary64Facts Deox EVGumbel.
Local Open Scope float_scope.

Example logK_Al_1873 : logK_Al 1873 = Ok (-12.565798184730381).
Proof. vm_compute. reflexivity. Qed.

(** At a Python zero. *)
Example logK_Al_zero : logK_Al 0 = Raise ZeroDivisionError.
Proof. vm_compute. reflexivity. Qed.

Example e_AlO_1873 : e_AlO 1873 = Ok (-1.9795355045381742).
Proof. vm_compute. reflexivity. Qed.

Example fitEVmom_astm :
  fitEVmom Sample.df true = Ok (43.261705814349654, 14.708150009789239).
Proof. vm_compute. reflexivity. Qed.

Example eCDF_with_missing :
  eCDF [mkRow "A" 1 3; mkRow "A" 2 nan; mkRow "A" 3 1; mkRow "A" 4 2]
  = ([1; 2; 3; nan], [0.2; 0.4; 0.6; 0.8]).
Proof. vm_compute. reflexivity. Qed.

Example calcSE_example :
  calcSE 50 50 10 24 = 10 * PrimFloat.sqrt (1.109 / 24).
Proof. vm_compute. reflexivity. Qed.

Example mask_above_example :
  mask_above 1.5 [1; 2; nan; infinity] = [1; nan; nan; nan].
Proof. vm_compute. reflexivity. Qed.

(** Counterexample to C4: on a one-row frame [fitEVmom] raises nothing and
    returns NaN for both parameters. *)
Lemma fitEVmom_single_returns_nan :
  fitEVmom Sample.single true = Ok (nan, nan).
Proof. vm_compute. reflexivity. Qed.

Lemma fitEVmom_small_sample_witness :
  fitEVmom (@nil (@Row float)) true = Ok (nan, nan).
Proof.
  refine (fitEVmom_small_sample (A := float) [] true _). simpl. lia.
Defined.

(** A NaN given as the bound is not a number to compare with: the
    comparison is false for every content and nothing is masked. *)
Example data_deox_nan_bound :
  data_deox Sample.seed_solver Sample.identity_objective
            1873 [0.01] 1 1e-8 2 nan
    = Ok ([0.01], [1e-8]).
Proof. vm_compute. reflexivity. Qed.

(** A sweep whose first content (0.1) is above the bound 0.01 and whose
    second (0.001) is not: the first is masked, the second kept. *)
Lemma data_deox_bound_witness :
  exists pcts_O : list float,
    data_deox Inputs.probe_solver Inputs.reciprocal_objective
              1873 [0.01; 1] 1 1e-3 2 1e-2
      = Ok ([0.01; 1], pcts_O)
    /\ pcts_O = [nan; 1e-3]
    /\ Forall (fun v' => (1e-2 <? v') = false) pcts_O
    /\ Forall (fun v' => (v' <=? 1e-2) = true \/ is_nan v' = true) pcts_O.
Proof.
  assert (sweep Inputs.probe_solver Inputs.reciprocal_objective
                1873 [0.01; 1] 1 1e-3 2
          = Ok [0.10000000000000001; 1e-3]) as Hs
    by (vm_compute; reflexivity).
  destruct (data_deox_bound _ _ _ _ _ _ _ 1e-2 _ Hs)
    as (pcts_O & E & G & _ & L).
  exists pcts_O. split; [exact E | ].
  split; [ | split; [exact G | exact (L eq_refl)]].
  vm_compute in E. injection E as <-. reflexivity.
Defined.


Example calcSE_overflow_numpy : calcSE 1e200 0 1 1 = infinity.
Proof. vm_compute. reflexivity. Qed.

Example calcSE_scalar_example :
  Scalar.calcSE 60 50 10 24 = Ok (calcSE 60 50 10 24).
Proof. vm_compute. reflexivity. Qed.

(** Rounding in the mean leaves a tiny scale on three equal measurements
    0.1, where exact arithmetic gives 0. *)
Example fitEVmom_equal_tenths :
  fitEVmom Inputs.three_equal_tenths true
  = Ok (0.10000000000000001, 1.3252311172764651e-17).
Proof. vm_compute. reflexivity. Qed.

End Binary64Examples.

(** ** The statements at concrete inputs *)

Module IdealExamples.
Import Ideal IdealFacts Deox EVGumbel IdealProofs.
Local Open Scope R_scope.

Lemma Al_O_eqs_order_0_witness :
  Al_O_eqs (Fin 0.001) (Fin 0.01, Fin 1873, Fin 1, 0%Z)
  = Ok (Fin (2 * log10 0.01 + 3 * log10 0.001 - log10 1
             - (-45300 / 1873 + 11.62))).
Proof.
  apply (Al_O_eqs_order_0 0.001 0.01 1873 1); lra.
Defined.

Lemma invalid_order_raises_witness :
  calc_pure Sample.seed_solver Al_O_eqs
            (Fin 0.01) (Fin 1873) (Fin 1) (Fin 1e-8) 3
    = Raise (ValueError "3 is not a valid integer, use either: [0, 1, 2]")
  /\ Al_O_eqs (Fin 0.001) (Fin 0.01, Fin 1873, Fin 1, 3%Z)
    = Raise (ValueError
               "order: 3 is not a valid integer, choose either [0, 1, 2]").
Proof.
  destruct (invalid_order_raises (A := xreal) Sample.seed_solver Al_O_eqs
              (Fin 0.001) (Fin 0.01) (Fin 1873) (Fin 1) (Fin 1e-8) 3)
    as (E1 & E2).
  - simpl. lia.
  - split; [exact E1 | apply E2].
    cbn. destruct (Req_dec_T 1873 0); [lra | reflexivity].
Defined.

Lemma coefficient_formulas_witness :
  logK_Al (Fin 1873) = Ok (Fin (-45300 / 1873 + 11.62)).
Proof.
  apply (coefficient_formulas 1873). lra.
Defined.

Lemma sample_frame : column_Y Sample.df = map Fin Sample.Y_real.
Proof. reflexivity. Qed.

Lemma eCDF_weibull_witness :
  exists zs : list R,
    eCDF Sample.df
      = (map Fin zs, map (fun i => Fin (INR i / (INR 24 + 1))) (seq 1 24))
    /\ Permutation Sample.Y_real zs /\ Sorted Rle zs.
Proof.
  apply (eCDF_weibull Sample.df Sample.Y_real). reflexivity.
Defined.

Lemma fitEVmom_moments_witness :
  fitEVmom Sample.df true
  = Ok (Fin (sample_mean Sample.Y_real
             - 0.5772 * (sample_std Sample.Y_real * sqrt 6 / PI)),
        Fin (sample_std Sample.Y_real * sqrt 6 / PI)).
Proof.
  apply (fitEVmom_moments Sample.df Sample.Y_real true).
  - reflexivity.
  - simpl. lia.
Defined.




End IdealExamples.

(** * Further properties of the code *)

(** ** In every arithmetic *)

Section GenericExtras.

Context {A : Type} {num : Arith A} {elem : Elementary A}.
Local Open Scope py_scope.
Import Deox EVGumbel.

(** X1.  With a Python number (int or float) equal to zero as the
    temperature, every coefficient function that divides by [T] raises
    ZeroDivisionError, the two constant ones ([r_AlAl], [r_OO]) still
    return 0, and [Al_O_eqs] raises ZeroDivisionError at every order, valid
    or not, before it reads any coefficient function.  (A NumPy zero
    divides to an infinity instead and is not the subject here.) *)
Theorem zero_temperature (T : A) :
  (T == of_int 0) = true ->
  logK_Al T = Raise ZeroDivisionError
  /\ e_AlAl T = Raise ZeroDivisionError
  /\ e_AlO T = Raise ZeroDivisionError
  /\ e_OAl T = Raise ZeroDivisionError
  /\ e_OO T = Raise ZeroDivisionError
  /\ r_AlO T = Raise ZeroDivisionError
  /\ r_OAl T = Raise ZeroDivisionError
  /\ r_AlAlO T = Raise ZeroDivisionError
  /\ r_OAlO T = Raise ZeroDivisionError
  /\ r_AlAl T = Ok (of_int 0)
  /\ r_OO T = Ok (of_int 0)
  /\ forall (g : InteractionCoefficientSet) (pctO pctAl aAl2O3 : A)
            (order : Z),
       Al_O_eqs_in g pctO (pctAl, T, aAl2O3, order) = Raise ZeroDivisionError.
Proof.
  intro HT.
  unfold logK_Al, e_AlAl, e_AlO, e_OAl, e_OO, r_AlO, r_OAl, r_AlAlO, r_OAlO,
    r_AlAl, r_OO, Al_O_eqs_in, logK_Al, truediv.
  rewrite HT. repeat split.
Qed.


Lemma sweep_length
  (fsolve : (A -> result A) -> A -> result A)
  (func : A -> params -> result A)
  (T : A) (pcts_M : list A) (a_MxOy x0 : A) (order : Z) (raw : list A) :
  sweep fsolve func T pcts_M a_MxOy x0 order = Ok raw ->
  Forall2 (fun p v => calc_pure fsolve func p T a_MxOy x0 order = Ok v)
          pcts_M raw.
Proof.
  revert raw. induction pcts_M as [|p rest IH]; intros raw Hs; simpl in Hs.
  - injection Hs as <-. constructor.
  - destruct (calc_pure fsolve func p T a_MxOy x0 order) as [v|e] eqn:E;
      simpl in Hs; [ | discriminate Hs].
    destruct (sweep fsolve func T rest a_MxOy x0 order) as [vs|e];
      simpl in Hs; [ | discriminate Hs].
    injection Hs as <-. constructor; [exact E | apply IH; reflexivity].
Qed.

(** X2.  What [data_deox] returns is parallel to what it was given: the
    aluminium contents come back unchanged, there is one oxygen content per
    aluminium content, and the content at each position is the result of
    the root search for the aluminium content at that position, or NaN when
    that result is above the bound. *)
Theorem data_deox_parallel
  (fsolve : (A -> result A) -> A -> result A)
  (func : A -> params -> result A)
  (T : A) (pcts_M : list A) (a_MxOy x0 : A) (order : Z) (bound : A)
  (out_M out_O : list A) :
  data_deox fsolve func T pcts_M a_MxOy x0 order bound = Ok (out_M, out_O) ->
  out_M = pcts_M
  /\ List.length out_O = List.length pcts_M
  /\ Forall2 (fun p v' =>
                exists v, calc_pure fsolve func p T a_MxOy x0 order = Ok v
                          /\ v' = if v >? bound then fnan else v)
             pcts_M out_O.
Proof.
  unfold data_deox. intro Hd.
  destruct (sweep fsolve func T pcts_M a_MxOy x0 order) as [raw|e] eqn:Hs;
    simpl in Hd; [ | discriminate Hd].
  injection Hd as <- <-.
  apply sweep_length in Hs.
  split; [reflexivity | ].
  unfold mask_above. split.
  - rewrite length_map. symmetry. exact (Forall2_length Hs).
  - induction Hs as [|p v ps vs Hp _ IH]; simpl; constructor.
    + exists v. split; [exact Hp | reflexivity].
    + exact IH.
Qed.

(** X3.  [data_deox] checks the order only inside the loop.  With an order
    outside {0, 1, 2} it raises the ValueError of [calc_pure] as soon as
    there is one aluminium content, whatever the root finder and the
    objective are; on the empty sequence it raises nothing and returns two
    empty sequences. *)
Theorem data_deox_invalid_order
  (fsolve : (A -> result A) -> A -> result A)
  (func : A -> params -> result A)
  (T a_MxOy x0 : A) (order : Z) (bound : A) :
  ~ In order [0; 1; 2]%Z ->
  data_deox fsolve func T [] a_MxOy x0 order bound = Ok ([], [])
  /\ forall (pct_M : A) (rest : list A),
       data_deox fsolve func T (pct_M :: rest) a_MxOy x0 order bound
       = Raise (ValueError (str_of_int order ++
                            " is not a valid integer, use either: [0, 1, 2]")).
Proof.
  intro Hbad. split; [reflexivity | ].
  intros pct_M rest. unfold data_deox. simpl. unfold calc_pure.
  replace (existsb (Z.eqb order) valid) with false
    by (symmetry; apply valid_spec, Hbad).
  rewrite str_of_valid. reflexivity.
Qed.

(** X4.  The loop of [data_deox] stops at the first root search that
    raises: when the searches for a prefix of the aluminium contents return
    and the next one raises [e], [data_deox] raises [e], whatever follows
    and whatever the bound is. *)
Theorem data_deox_first_failure
  (fsolve : (A -> result A) -> A -> result A)
  (func : A -> params -> result A)
  (T : A) (before : list A) (pct_M : A) (rest : list A)
  (a_MxOy x0 : A) (order : Z) (bound : A) (raw : list A) (e : exn) :
  sweep fsolve func T before a_MxOy x0 order = Ok raw ->
  calc_pure fsolve func pct_M T a_MxOy x0 order = Raise e ->
  data_deox fsolve func T (before ++ pct_M :: rest) a_MxOy x0 order bound
  = Raise e.
Proof.
  intros Hs He. unfold data_deox.
  assert (sweep fsolve func T (before ++ pct_M :: rest) a_MxOy x0 order
          = Raise e) as ->; [ | reflexivity].
  revert raw Hs. induction before as [|p ps IH]; intros raw Hs; simpl.
  - rewrite He. reflexivity.
  - simpl in Hs.
    destruct (calc_pure fsolve func p T a_MxOy x0 order) as [v|e'];
      simpl in *; [ | discriminate Hs].
    destruct (sweep fsolve func T ps a_MxOy x0 order) as [vs|e'] eqn:Hps;
      simpl in Hs; [ | discriminate Hs].
    rewrite (IH vs eq_refl). reflexivity.
Qed.

(** X5.  A caller cannot hand [gumbelPlot] one parameter: when only
    [delta] or only [gamma] is given, the fit is run and its result is
    used, so the call does exactly what the call with neither does. *)
Theorem gumbelPlot_one_parameter_ignored
  (gumbel_r_fit : list A -> result (A * A))
  (df : DataFrame) (gamma delta : A) (ax : option Axes) :
  gumbelPlot gumbel_r_fit df None (Some delta) ax
    = gumbelPlot gumbel_r_fit df None None ax
  /\ gumbelPlot gumbel_r_fit df (Some gamma) None ax
    = gumbelPlot gumbel_r_fit df None None ax.
Proof.
  split; unfold gumbelPlot; destruct (eCDF df); reflexivity.
Qed.

(** X6.  When [gumbelPlot] runs the fit and the fit raises, [gumbelPlot]
    raises the same exception. *)
Theorem gumbelPlot_fit_raises
  (gumbel_r_fit : list A -> result (A * A))
  (df : DataFrame) (gamma delta : option A) (ax : option Axes) (e : exn) :
  gamma = None \/ delta = None ->
  gumbel_r_fit (column_Y df) = Raise e ->
  gumbelPlot gumbel_r_fit df gamma delta ax = Raise e.
Proof.
  intros Hnone Hfit. unfold gumbelPlot, fitEVml.
  destruct (eCDF df). rewrite Hfit.
  destruct Hnone as [-> | ->]; [ | destruct gamma]; reflexivity.
Qed.

Lemma insert_perm (x : A) (l : list A) : Permutation (x :: l) (Lib.insert x l).
Proof.
  induction l as [|y l IH]; simpl; [reflexivity | ].
  destruct (x <=? y); [reflexivity | ].
  rewrite perm_swap. apply perm_skip, IH.
Qed.

Lemma insertion_sort_perm (l : list A) :
  Permutation l (fold_right Lib.insert [] l).
Proof.
  induction l as [|x l IH]; simpl; [reflexivity | ].
  rewrite <- insert_perm. apply perm_skip, IH.
Qed.

Lemma notna_isnan_perm (s : list A) :
  Permutation s (Lib.notna s ++ filter isnan s).
Proof.
  unfold Lib.notna. induction s as [|x s IH]; simpl; [reflexivity | ].
  destruct (isnan x); simpl.
  - apply Permutation_cons_app, IH.
  - apply perm_skip, IH.
Qed.

Lemma sort_values_perm (s : list A) : Permutation s (Lib.sort_values s).
Proof.
  unfold Lib.sort_values. rewrite (notna_isnan_perm s) at 1.
  apply Permutation_app_tail, insertion_sort_perm.
Qed.

Lemma eCDF_lengths (df : DataFrame) :
  List.length (fst (eCDF df)) = List.length df
  /\ List.length (snd (eCDF df)) = List.length df.
Proof.
  unfold eCDF. cbn [fst snd].
  assert (List.length (Lib.sort_values (column_Y df)) = List.length df) as L.
  { rewrite <- (Permutation_length (sort_values_perm (column_Y df))).
    unfold column_Y. apply length_map. }
  split; [exact L | ].
  unfold Lib.linspace_1_n. rewrite !length_map, length_seq. exact L.
Qed.

(** X7.  In every arithmetic, missing values (NaN) included, [eCDF] neither
    loses nor invents a measurement: the first array it returns is a
    rearrangement of column [Y], and both arrays have one entry per row. *)
Theorem eCDF_rearranges (df : DataFrame) :
  Permutation (column_Y df) (fst (eCDF df))
  /\ List.length (fst (eCDF df)) = List.length df
  /\ List.length (snd (eCDF df)) = List.length df.
Proof.
  split; [ | exact (eCDF_lengths df)].
  unfold eCDF. cbn [fst]. apply sort_values_perm.
Qed.

(** X8.  When [gumbelPlot] returns, the axes hold the lines they held
    before followed by exactly four new ones (the data with markers, the
    fitted line, the two dashed band ends); the four share one ordinate
    array, and every abscissa and ordinate array has one entry per row of
    the frame. *)
Theorem gumbelPlot_lines
  (gumbel_r_fit : list A -> result (A * A))
  (df : DataFrame) (gamma delta : option A) (ax : option Axes)
  (lines : Axes) :
  gumbelPlot gumbel_r_fit df gamma delta ax = Ok lines ->
  exists (xSorted redVar xML xmin xmax : list A),
    lines = match ax with None => [] | Some a => a end
            ++ [ mkLine xSorted redVar "" "o";
                 mkLine xML redVar "-" "";
                 mkLine xmin redVar "--" "";
                 mkLine xmax redVar "--" "" ]
    /\ xSorted = fst (eCDF df)
    /\ Forall (fun l => List.length l = List.length df)
              [xSorted; redVar; xML; xmin; xmax].
Proof.
  unfold gumbelPlot. intro Hg.
  destruct (eCDF_lengths df) as (L1 & L2).
  destruct (eCDF df) as [xSorted ecdf]. cbn [fst snd] in *.
  destruct (match gamma, delta with
            | Some _, Some d => Ok (None, d)
            | _, _ => ('(l, d) <- fitEVml gumbel_r_fit df true ;;
                       Ok (Some l, d))
            end) as [[lamb d]|e] eqn:Hb; simpl in Hg; [ | discriminate Hg].
  destruct lamb as [lamb|]; simpl in Hg; [ | discriminate Hg].
  injection Hg as <-. unfold plot. rewrite <- !app_assoc. simpl.
  do 5 eexists. split; [reflexivity | split; [reflexivity | ]].
  assert (forall (B C D : Type) (f : B -> C -> D) (g : B -> C) (l : list B),
             List.length (Lib.map2 f l (map g l)) = List.length l) as M.
  { intros B C D f g l. induction l; simpl; congruence. }
  repeat constructor; rewrite ?M, ?length_map; assumption.
Qed.

Context {ordered : OrderLaws A}.

Lemma insert_sorted (x : A) (l : list A) :
  isnan x = false ->
  Forall (fun y => isnan y = false) l ->
  Sorted (fun a b => (a <=? b) = true) l ->
  Sorted (fun a b => (a <=? b) = true) (Lib.insert x l)
  /\ forall a, (a <=? x) = true ->
       HdRel (fun a b => (a <=? b) = true) a l ->
       HdRel (fun a b => (a <=? b) = true) a (Lib.insert x l).
Proof.
  intros Nx Nl Sl. induction l as [|y l IH]; simpl.
  - split; [repeat constructor | intros; constructor; assumption].
  - inversion Nl as [|? ? Ny Nl']; subst.
    inversion Sl as [|? ? Sl' Hd]; subst.
    destruct (x <=? y) eqn:E.
    + split; [constructor; [exact Sl | constructor; exact E] | ].
      intros a Ha _. constructor. exact Ha.
    + destruct (IH Nl' Sl') as [S' H'].
      split.
      * constructor; [exact S' | ].
        apply H'; [apply fleb_total; assumption | exact Hd].
      * intros a _ Ha. inversion Ha; subst. constructor. assumption.
Qed.

(** X9.  In an arithmetic whose [<=] is total on the numbers that are not
    NaN (binary64 is one), the first array of [eCDF] is the measurements
    of column [Y] that are numbers in ascending order, followed by its
    missing ones: the array splits into two parts that together are a
    rearrangement of the column, the first holding numbers only, in
    ascending order, the second missing values only. *)
Theorem eCDF_ascending_nan_last (df : DataFrame) :
  exists numbers missing : list A,
    fst (eCDF df) = numbers ++ missing
    /\ Permutation (column_Y df) (numbers ++ missing)
    /\ Forall (fun x => isnan x = false) numbers
    /\ Forall (fun x => isnan x = true) missing
    /\ Sorted (fun a b => (a <=? b) = true) numbers.
Proof.
  unfold eCDF. cbn [fst].
  pose proof (sort_values_perm (column_Y df)) as P.
  unfold Lib.sort_values in *.
  exists (fold_right Lib.insert [] (Lib.notna (column_Y df))),
         (filter isnan (column_Y df)).
  split; [reflexivity | ]. split; [exact P | ]. clear P.
  assert (Forall (fun x => isnan x = false) (Lib.notna (column_Y df))) as N.
  { apply Forall_forall. intros x Hx. unfold Lib.notna in Hx.
    apply filter_In in Hx. destruct Hx as [_ Hx].
    apply negb_true_iff in Hx. exact Hx. }
  split; [ | split].
  - apply Forall_forall. intros x Hx.
    apply (Permutation_in _ (Permutation_sym (insertion_sort_perm _))) in Hx.
    revert x Hx. apply Forall_forall. exact N.
  - apply Forall_forall. intros x Hx. apply filter_In in Hx. apply Hx.
  - induction N as [|x l Nx Nl IH]; simpl; [constructor | ].
    apply insert_sorted; [exact Nx | | exact IH].
    apply Forall_forall. intros y Hy.
    apply (Permutation_in _ (Permutation_sym (insertion_sort_perm _))) in Hy.
    revert y Hy. apply Forall_forall. exact Nl.
Qed.

End GenericExtras.

(** ** In exact real arithmetic *)

Module IdealExtras.
Import Ideal IdealFacts Deox EVGumbel IdealProofs.
Local Open Scope R_scope.

(** X10.  The two notebooks agree: at every temperature other than zero,
    each function of src/en/Deox.py returns the value of the CasADi
    expression of the same name in src/pt/Deox-casadi.py. *)
Theorem casadi_agrees (T : R) :
  T <> 0 ->
  logK_Al (Fin T) = Ok (DeoxCasadi.logK_Al (Fin T))
  /\ e_AlAl (Fin T) = Ok (DeoxCasadi.e_AlAl (Fin T))
  /\ e_AlO (Fin T) = Ok (DeoxCasadi.e_AlO (Fin T))
  /\ e_OAl (Fin T) = Ok (DeoxCasadi.e_OAl (Fin T))
  /\ e_OO (Fin T) = Ok (DeoxCasadi.e_OO (Fin T))
  /\ r_AlAl (Fin T) = Ok (DeoxCasadi.r_AlAl (Fin T))
  /\ r_AlO (Fin T) = Ok (DeoxCasadi.r_AlO (Fin T))
  /\ r_OAl (Fin T) = Ok (DeoxCasadi.r_OAl (Fin T))
  /\ r_OO (Fin T) = Ok (DeoxCasadi.r_OO (Fin T))
  /\ r_AlAlO (Fin T) = Ok (DeoxCasadi.r_AlAlO (Fin T))
  /\ r_OAlO (Fin T) = Ok (DeoxCasadi.r_OAlO (Fin T)).
Proof.
  intro HT.
  unfold logK_Al, e_AlAl, e_AlO, e_OAl, e_OO, r_AlAl, r_AlO, r_OAl, r_OO,
    r_AlAlO, r_OAlO, DeoxCasadi.logK_Al, DeoxCasadi.e_AlAl, DeoxCasadi.e_AlO,
    DeoxCasadi.e_OAl, DeoxCasadi.e_OO, DeoxCasadi.r_AlAl, DeoxCasadi.r_AlO,
    DeoxCasadi.r_OAl, DeoxCasadi.r_OO, DeoxCasadi.r_AlAlO, DeoxCasadi.r_OAlO.
  cbn [of_int dec arith]. rewrite !truediv_fin, !fin_div by exact HT.
  repeat split; simpl; do 2 f_equal; unfold literal; simpl; lra.
Qed.

(** The residual at each valid order, over the reals. *)
Lemma Al_O_eqs_fin (pctO pctAl T aAl2O3 : R) :
  0 < pctAl -> 0 < pctO -> T <> 0 -> 0 < aAl2O3 ->
  let eps0 := 2 * log10 pctAl + 3 * log10 pctO - log10 aAl2O3
              - (-45300 / T + 11.62) in
  let first := 2 * (80.5 / T * pctAl + (3.21 - 9720 / T) * pctO)
               + 3 * ((1.90 - 5750 / T) * pctAl + (0.76 - 1750 / T) * pctO) in
  let second :=
    2 * ((-107 - 2.75e5 / T) * pctO ^ 2 + (-0.021 - 13.78 / T) * pctAl * pctO)
    + 3 * ((0.0033 - 25 / T) * pctAl ^ 2
           + (127.3 + 3.273e5 / T) * pctAl * pctO) in
  Al_O_eqs (Fin pctO) (Fin pctAl, Fin T, Fin aAl2O3, 0%Z) = Ok (Fin eps0)
  /\ Al_O_eqs (Fin pctO) (Fin pctAl, Fin T, Fin aAl2O3, 1%Z)
     = Ok (Fin (eps0 + first))
  /\ Al_O_eqs (Fin pctO) (Fin pctAl, Fin T, Fin aAl2O3, 2%Z)
     = Ok (Fin (eps0 + first + second)).
Proof.
  intros HAl HO HT Ha eps0 first second.
  unfold Al_O_eqs, Al_O_eqs_in, first_order, second_order, module_globals,
    logK_Al, e_AlAl, e_AlO, e_OAl, e_OO, r_AlAl, r_AlO, r_OAl, r_OO,
    r_AlAlO, r_OAlO, sq.
  cbn [of_int dec arith get_e_AlAl get_e_AlO get_e_OAl get_e_OO get_r_AlAl
       get_r_AlO get_r_OAl get_r_OO get_r_AlAlO get_r_OAlO].
  rewrite !truediv_fin by exact HT. rewrite !fin_log10 by assumption.
  repeat split; simpl; do 2 f_equal;
    unfold eps0, first, second, literal; simpl; lra.
Qed.

(** X11.  How the three orders of refinement compose, for positive
    contents and activity and a temperature other than zero: no order
    raises; the order-1 residual is the order-0 residual plus the
    first-order terms, and the order-2 residual adds to that the
    second-order terms, in which the coefficients [r_AlAl] and [r_OO],
    being zero, leave nothing. *)
Theorem Al_O_eqs_orders (pctO pctAl T aAl2O3 : R) :
  0 < pctAl -> 0 < pctO -> T <> 0 -> 0 < aAl2O3 ->
  let first := 2 * (80.5 / T * pctAl + (3.21 - 9720 / T) * pctO)
               + 3 * ((1.90 - 5750 / T) * pctAl + (0.76 - 1750 / T) * pctO) in
  let second :=
    2 * ((-107 - 2.75e5 / T) * pctO ^ 2 + (-0.021 - 13.78 / T) * pctAl * pctO)
    + 3 * ((0.0033 - 25 / T) * pctAl ^ 2
           + (127.3 + 3.273e5 / T) * pctAl * pctO) in
  exists eps0 : R,
    Al_O_eqs (Fin pctO) (Fin pctAl, Fin T, Fin aAl2O3, 0%Z) = Ok (Fin eps0)
    /\ Al_O_eqs (Fin pctO) (Fin pctAl, Fin T, Fin aAl2O3, 1%Z)
       = Ok (Fin (eps0 + first))
    /\ Al_O_eqs (Fin pctO) (Fin pctAl, Fin T, Fin aAl2O3, 2%Z)
       = Ok (Fin (eps0 + first + second)).
Proof.
  intros HAl HO HT Ha first second.
  eexists. exact (Al_O_eqs_fin pctO pctAl T aAl2O3 HAl HO HT Ha).
Qed.

Lemma ln_10_pos : 0 < ln 10.
Proof. rewrite <- ln_1. apply ln_increasing; lra. Qed.

Lemma log10_Rpower (z : R) : log10 (Rpower 10 z) = z.
Proof.
  unfold log10, Rpower. rewrite ln_exp. field.
  pose proof ln_10_pos. lra.
Qed.

Lemma Rpower_10_pos (z : R) : 0 < Rpower 10 z.
Proof. unfold Rpower. apply exp_pos. Qed.

Lemma log10_inj (x y : R) : 0 < x -> 0 < y -> log10 x = log10 y -> x = y.
Proof.
  intros Hx Hy E. apply ln_inv; try assumption.
  unfold log10 in E. pose proof ln_10_pos as L.
  apply (Rmult_eq_reg_r (/ ln 10)); [exact E | ].
  apply Rinv_neq_0_compat. lra.
Qed.

Lemma log10_increasing (x y : R) : 0 < x -> x < y -> log10 x < log10 y.
Proof.
  intros Hx Hxy. unfold log10, Rdiv. pose proof ln_10_pos as L.
  apply Rmult_lt_compat_r; [apply Rinv_0_lt_compat, L | ].
  apply ln_increasing; assumption.
Qed.

(** X12.  The order-0 equilibrium in closed form.  For a temperature other
    than zero and a positive activity, with
    [root pctAl = 10 ^ ((log10 a + logK_Al(T) - 2 log10 pctAl) / 3)]: the
    order-0 residual is zero at the oxygen content [root pctAl]; it is zero
    at no other positive oxygen content; more aluminium means less oxygen
    ([root] is decreasing); and whenever the root finder returns a positive
    root of the residual, [calc_pure] returns [root pctAl]. *)
Theorem order_0_equilibrium (T aAl2O3 : R) :
  T <> 0 -> 0 < aAl2O3 ->
  let root := fun pctAl : R =>
    Rpower 10 ((log10 aAl2O3 + (-45300 / T + 11.62) - 2 * log10 pctAl) / 3) in
  (forall pctAl, 0 < pctAl ->
     0 < root pctAl
     /\ Al_O_eqs (Fin (root pctAl)) (Fin pctAl, Fin T, Fin aAl2O3, 0%Z)
        = Ok (Fin 0))
  /\ (forall pctAl pctO, 0 < pctAl -> 0 < pctO ->
        Al_O_eqs (Fin pctO) (Fin pctAl, Fin T, Fin aAl2O3, 0%Z) = Ok (Fin 0) ->
        pctO = root pctAl)
  /\ (forall pctAl pctAl', 0 < pctAl -> pctAl < pctAl' ->
        root pctAl' < root pctAl)
  /\ (forall (fsolve : (xreal -> result xreal) -> xreal -> result xreal)
             (pctAl x0 pctO : R),
        0 < pctAl -> 0 < pctO ->
        fsolve (fun x => Al_O_eqs x (Fin pctAl, Fin T, Fin aAl2O3, 0%Z))
               (Fin x0) = Ok (Fin pctO) ->
        Al_O_eqs (Fin pctO) (Fin pctAl, Fin T, Fin aAl2O3, 0%Z) = Ok (Fin 0) ->
        calc_pure fsolve Al_O_eqs (Fin pctAl) (Fin T) (Fin aAl2O3) (Fin x0) 0
        = Ok (Fin (root pctAl))).
Proof.
  intros HT Ha root.
  assert (forall pctAl pctO, 0 < pctAl -> 0 < pctO ->
            Al_O_eqs (Fin pctO) (Fin pctAl, Fin T, Fin aAl2O3, 0%Z)
              = Ok (Fin 0) ->
            pctO = root pctAl) as U.
  { intros pctAl pctO HAl HO E.
    destruct (Al_O_eqs_fin pctO pctAl T aAl2O3 HAl HO HT Ha) as (E0 & _).
    rewrite E0 in E. injection E as E.
    apply log10_inj; [exact HO | apply Rpower_10_pos | ].
    unfold root. rewrite log10_Rpower. lra. }
  split; [ | split; [exact U | split]].
  - intros pctAl HAl. split; [apply Rpower_10_pos | ].
    destruct (Al_O_eqs_fin (root pctAl) pctAl T aAl2O3 HAl
                (Rpower_10_pos _) HT Ha) as (E0 & _).
    rewrite E0. do 2 f_equal. unfold root. rewrite log10_Rpower. lra.
  - intros pctAl pctAl' HAl Hlt. unfold root, Rpower.
    apply exp_increasing. apply Rmult_lt_compat_r; [apply ln_10_pos | ].
    pose proof (log10_increasing pctAl pctAl' HAl Hlt). lra.
  - intros fsolve pctAl x0 pctO HAl HO Hf E.
    unfold calc_pure. change (existsb (Z.eqb 0) valid) with true.
    cbv iota zeta. rewrite Hf. cbn [bind].
    rewrite (U pctAl pctO HAl HO E). reflexivity.
Qed.

(** X13.  In exact arithmetic, [calcRedVar] is the inverse of the
    distribution function [F(y) = exp(-exp(-y))] of the notebook's text: it
    takes [F(y)] back to [y]; for [0 < F < 1] it returns a [y] with
    [F(y) = F]; and it is increasing on (0, 1).  (Doubles round: there
    [F(40)] is already 1.) *)
Theorem calcRedVar_inverts_cdf :
  (forall y : R, calcRedVar (Fin (gumbel_cdf y)) = Fin y)
  /\ (forall F : R, 0 < F < 1 ->
        exists y : R, calcRedVar (Fin F) = Fin y /\ gumbel_cdf y = F)
  /\ (forall F1 F2 y1 y2 : R, 0 < F1 -> F1 < F2 -> F2 < 1 ->
        calcRedVar (Fin F1) = Fin y1 -> calcRedVar (Fin F2) = Fin y2 ->
        y1 < y2).
Proof.
  assert (forall F, 0 < F < 1 -> ln F < 0) as Lneg.
  { intros F [H0 H1]. rewrite <- ln_1. apply ln_increasing; lra. }
  split; [ | split].
  - intro y. unfold calcRedVar.
    assert (0 < gumbel_cdf y < 1) as Hc.
    { unfold gumbel_cdf. split; [apply exp_pos | ].
      apply Rlt_le_trans with (exp 0); [ | rewrite exp_0; lra].
      apply exp_increasing. pose proof (exp_pos (- y)). lra. }
    rewrite (redVar_fin _ Hc). f_equal.
    unfold reduced_variable, gumbel_cdf.
    rewrite ln_exp, Ropp_involutive, ln_exp. lra.
  - intros F HF. exists (reduced_variable F). split.
    + unfold calcRedVar. apply redVar_fin, HF.
    + unfold reduced_variable, gumbel_cdf.
      pose proof (Lneg F HF).
      rewrite Ropp_involutive, exp_ln by lra.
      rewrite Ropp_involutive. apply exp_ln, HF.
  - intros F1 F2 y1 y2 H0 H12 H1 E1 E2.
    unfold calcRedVar in E1, E2.
    rewrite redVar_fin in E1 by lra. rewrite redVar_fin in E2 by lra.
    injection E1 as <-. injection E2 as <-.
    unfold reduced_variable.
    pose proof (Lneg F2 (conj (Rlt_trans _ _ _ H0 H12) H1)) as L2.
    pose proof (ln_increasing F1 F2 H0 H12) as L12.
    apply Ropp_lt_contravar. apply ln_increasing; lra.
Qed.

(** X14.  The width of the confidence band.  For [delta > 0] and
    [N >= 1] the standard error is a positive number, at least
    [delta * sqrt(1/N)] whatever [x] is, and it is smaller for a larger
    sample. *)
Theorem calcSE_width (x lamb delta : R) (N : Z) :
  0 < delta -> (1 <= N)%Z ->
  exists se : R,
    calcSE (Fin x) (Fin lamb) (Fin delta) N = Fin se
    /\ 0 < se
    /\ delta * sqrt (1 / IZR N) <= se
    /\ forall N' : Z, (N < N')%Z ->
         exists se' : R,
           calcSE (Fin x) (Fin lamb) (Fin delta) N' = Fin se' /\ se' < se.
Proof.
  intros Hd HN.
  assert (0 < IZR N) as HN' by (apply IZR_lt; lia).
  set (y := (x - lamb) / delta).
  set (q := 1.109 + 0.514 * y + 0.608 * y ^ 2).
  assert (1 <= q) as Hq.
  { unfold q. generalize y. intro t.
    pose proof (pow2_ge_0 (t + 257 / 608)). nra. }
  exists (delta * sqrt (q / IZR N)).
  split; [apply calcSE_fin; assumption | ].
  assert (0 < q / IZR N) as Hpos by (apply Rdiv_lt_0_compat; lra).
  split; [apply Rmult_lt_0_compat; [exact Hd | apply sqrt_lt_R0, Hpos] | ].
  split.
  - apply Rmult_le_compat_l; [lra | ].
    apply sqrt_le_1_alt. unfold Rdiv.
    apply Rmult_le_compat_r; [ | exact Hq].
    apply Rlt_le, Rinv_0_lt_compat, HN'.
  - intros N' HNN'.
    assert (IZR N < IZR N') as HNN by (apply IZR_lt; exact HNN').
    exists (delta * sqrt (q / IZR N')).
    split; [apply calcSE_fin; lra | ].
    apply Rmult_lt_compat_l; [exact Hd | ].
    apply sqrt_lt_1_alt. split.
    + apply Rlt_le, Rdiv_lt_0_compat; lra.
    + unfold Rdiv. apply Rmult_lt_compat_l; [lra | ].
      apply Rinv_lt_contravar; [apply Rmult_lt_0_compat; lra | exact HNN].
Qed.

(** *** Sums over the reals *)

Lemma fold_Rplus_acc (l : list R) (a : R) :
  fold_left Rplus l a = a + Rsum l.
Proof.
  unfold Rsum. revert a. induction l as [|x l IH]; intro a; simpl.
  - lra.
  - rewrite (IH (a + x)), (IH (0 + x)). lra.
Qed.

Lemma Rsum_cons (x : R) (l : list R) : Rsum (x :: l) = x + Rsum l.
Proof. unfold Rsum at 1. simpl. rewrite fold_Rplus_acc. lra. Qed.

Lemma Rsum_perm (l1 l2 : list R) : Permutation l1 l2 -> Rsum l1 = Rsum l2.
Proof.
  induction 1 as [|x l l' _ IH|x y l|l l' l'' _ IH1 _ IH2].
  - reflexivity.
  - rewrite !Rsum_cons, IH. reflexivity.
  - rewrite !Rsum_cons. lra.
  - congruence.
Qed.

Lemma Rsum_repeat (c : R) (n : nat) : Rsum (repeat c n) = INR n * c.
Proof.
  induction n as [|n IH].
  - simpl. unfold Rsum. simpl. lra.
  - cbn [repeat]. rewrite Rsum_cons, IH, S_INR. lra.
Qed.

Lemma Rsum_map_affine (k c : R) (l : list R) :
  Rsum (map (fun y => k * y + c) l) = k * Rsum l + INR (List.length l) * c.
Proof.
  induction l as [|x l IH].
  - unfold Rsum. simpl. lra.
  - cbn [map List.length]. rewrite !Rsum_cons, IH, S_INR. lra.
Qed.

Lemma Rsum_map_scale (k : R) (f : R -> R) (l : list R) :
  Rsum (map (fun y => k * f y) l) = k * Rsum (map f l).
Proof.
  induction l as [|x l IH].
  - unfold Rsum. simpl. lra.
  - cbn [map]. rewrite !Rsum_cons, IH. lra.
Qed.

Lemma fitEVmom_fin (df : DataFrame) (ys : list R) (verbose : bool) :
  column_Y df = map Fin ys ->
  (2 <= List.length ys)%nat ->
  fitEVmom df verbose
  = Ok (Fin (sample_mean ys - 0.5772 * (sample_std ys * sqrt 6 / PI)),
        Fin (sample_std ys * sqrt 6 / PI)).
Proof.
  intros HY Hn. unfold fitEVmom. rewrite HY, std_fin by exact Hn.
  rewrite mean_fin by (destruct ys; [simpl in Hn; lia | discriminate]).
  cbn [of_int dec fpi arith]. rewrite fin_sqrt by lra.
  cbn [fmul arith lift2]. rewrite fin_div by apply PI_neq0.
  reflexivity.
Qed.

(** X15.  In exact arithmetic, a sample of [N >= 2] equal measurements
    has no spread, and [fitEVmom] returns the scale [delta = 0] (not a
    positive scale) with the location equal to the common value.  (On
    doubles the mean is rounded and a scale of the order of the rounding
    error can be left.) *)
Theorem fitEVmom_constant_sample (df : DataFrame) (c : R) (verbose : bool) :
  Forall (fun row => Y row = Fin c) df ->
  (2 <= List.length df)%nat ->
  fitEVmom df verbose = Ok (Fin c, Fin 0).
Proof.
  intros Hc Hn.
  set (n := List.length df).
  assert (column_Y df = map Fin (repeat c n)) as HY.
  { unfold n, column_Y. clear Hn n.
    induction Hc as [|row df Hrow _ IH]; simpl; [reflexivity | ].
    rewrite Hrow, IH. reflexivity. }
  assert (1 < INR n) as Hgt by (apply (lt_INR 1); exact Hn).
  assert (sample_mean (repeat c n) = c) as Hm.
  { unfold sample_mean. rewrite Rsum_repeat, repeat_length. field. lra. }
  assert (sample_std (repeat c n) = 0) as Hs.
  { unfold sample_std. rewrite Hm, map_repeat, Rsum_repeat, repeat_length.
    replace (INR n * (c - c) ^ 2 / (INR n - 1)) with 0 by (field; lra).
    apply sqrt_0. }
  rewrite (fitEVmom_fin df (repeat c n) verbose HY)
    by (rewrite repeat_length; exact Hn).
  rewrite Hm, Hs. do 3 f_equal; lra.
Qed.

Lemma sample_mean_perm (l1 l2 : list R) :
  Permutation l1 l2 -> sample_mean l1 = sample_mean l2.
Proof.
  intro P. unfold sample_mean.
  rewrite (Rsum_perm _ _ P), (Permutation_length P). reflexivity.
Qed.

Lemma sample_std_perm (l1 l2 : list R) :
  Permutation l1 l2 -> sample_std l1 = sample_std l2.
Proof.
  intro P. unfold sample_std.
  rewrite (sample_mean_perm _ _ P), (Permutation_length P).
  rewrite (Rsum_perm _ _ (Permutation_map _ P)). reflexivity.
Qed.

Lemma sorted_perm_unique (l1 l2 : list R) :
  Sorted Rle l1 -> Sorted Rle l2 -> Permutation l1 l2 -> l1 = l2.
Proof.
  intros S1 S2.
  apply Sorted_StronglySorted in S1; [ | intros a b c; apply Rle_trans].
  apply Sorted_StronglySorted in S2; [ | intros a b c; apply Rle_trans].
  revert l2 S2. induction S1 as [|a l1 S1 IH Ha]; intros l2 S2 P.
  - apply Permutation_nil in P. congruence.
  - destruct S2 as [|b l2 S2 Hb].
    + apply Permutation_sym, Permutation_nil in P. discriminate P.
    + assert (a = b) as ->.
      { assert (In a (b :: l2)) as Ia
          by (apply (Permutation_in _ P); left; reflexivity).
        assert (In b (a :: l1)) as Ib
          by (apply (Permutation_in _ (Permutation_sym P)); left; reflexivity).
        rewrite Forall_forall in Ha, Hb.
        destruct Ia as [-> | Ia]; [reflexivity | ].
        destruct Ib as [-> | Ib]; [reflexivity | ].
        apply Rle_antisym; [apply Ha, Ib | apply Hb, Ia]. }
      f_equal. apply IH; [exact S2 | ].
      exact (Permutation_cons_inv P).
Qed.

(** X16.  The order of the rows does not matter: for a frame of
    measurements that are numbers, any rearrangement of its rows gives the
    same sorted sample and probabilities from [eCDF] and the same
    parameters from [fitEVmom]. *)
Theorem row_order_irrelevant (df df' : DataFrame) (ys : list R)
  (verbose : bool) :
  column_Y df = map Fin ys ->
  Permutation df df' ->
  eCDF df' = eCDF df /\ fitEVmom df' verbose = fitEVmom df verbose.
Proof.
  intros HY P.
  assert (Permutation (column_Y df') (map Fin ys)) as P'
    by (rewrite <- HY; apply Permutation_map, Permutation_sym, P).
  apply Permutation_map_inv in P'. destruct P' as (ys' & HY' & Pys).
  pose proof (Permutation_length P) as L.
  split.
  - destruct (eCDF_fin df ys HY) as (zs & E & Pz & Sz).
    destruct (eCDF_fin df' ys' HY') as (zs' & E' & Pz' & Sz').
    rewrite E, E', <- L.
    rewrite (sorted_perm_unique zs' zs Sz' Sz); [reflexivity | ].
    rewrite <- Pz', <- Pz. apply Permutation_sym, Pys.
  - destruct (le_lt_dec 2 (List.length ys)) as [Hn | Hn].
    + rewrite (fitEVmom_fin df ys verbose HY Hn).
      rewrite (fitEVmom_fin df' ys' verbose HY')
        by (rewrite <- (Permutation_length Pys); exact Hn).
      rewrite (sample_mean_perm _ _ Pys), (sample_std_perm _ _ Pys).
      reflexivity.
    + assert (List.length df = List.length ys) as Ld.
      { rewrite <- (length_map Y df). fold (column_Y df).
        rewrite HY. apply length_map. }
      assert (df' = df) as ->; [ | reflexivity].
      destruct df as [|r [|r2 df]].
      * apply Permutation_nil in P. exact P.
      * apply Permutation_length_1_inv in P. exact P.
      * simpl in Ld. lia.
Qed.

(** X17.  A change of unit or of origin of the measurements carries over to
    the parameters: when every measurement [y] is replaced by [k y + c]
    with [k > 0], the location returned by [fitEVmom] goes from [lambda] to
    [k lambda + c] and the scale from [delta] to [k delta]. *)
Theorem fitEVmom_affine (df df' : DataFrame) (ys : list R) (k c : R)
  (verbose : bool) :
  column_Y df = map Fin ys ->
  column_Y df' = map Fin (map (fun y => k * y + c) ys) ->
  0 < k ->
  (2 <= List.length ys)%nat ->
  exists lamb delta : R,
    fitEVmom df verbose = Ok (Fin lamb, Fin delta)
    /\ fitEVmom df' verbose = Ok (Fin (k * lamb + c), Fin (k * delta)).
Proof.
  intros HY HY' Hk Hn.
  set (ys' := map (fun y => k * y + c) ys) in *.
  assert (List.length ys' = List.length ys) as L by apply length_map.
  assert (1 < INR (List.length ys)) as Hgt by (apply (lt_INR 1); exact Hn).
  assert (sample_mean ys' = k * sample_mean ys + c) as Hm.
  { unfold sample_mean, ys'. rewrite Rsum_map_affine, length_map.
    field. lra. }
  assert (sample_std ys' = k * sample_std ys) as Hs.
  { unfold sample_std. rewrite Hm, L. unfold ys'. rewrite map_map.
    rewrite (map_ext _ (fun y => k ^ 2 * (y - sample_mean ys) ^ 2))
      by (intro y; ring).
    rewrite (Rsum_map_scale (k ^ 2) (fun y => (y - sample_mean ys) ^ 2)).
    set (Q := Rsum (map (fun y => (y - sample_mean ys) ^ 2) ys)).
    assert (0 <= Q) as HQ by apply Rsum_squares_nonneg.
    replace (k ^ 2 * Q / (INR (List.length ys) - 1))
      with (k * k * (Q / (INR (List.length ys) - 1))) by (field; lra).
    rewrite sqrt_mult; [ | nra | ].
    - rewrite sqrt_square by lra. reflexivity.
    - apply Rmult_le_pos; [exact HQ | ].
      apply Rlt_le, Rinv_0_lt_compat. lra. }
  exists (sample_mean ys - 0.5772 * (sample_std ys * sqrt 6 / PI)),
         (sample_std ys * sqrt 6 / PI).
  split; [apply fitEVmom_fin; assumption | ].
  rewrite (fitEVmom_fin df' ys' verbose HY') by (rewrite L; exact Hn).
  rewrite Hm, Hs. pose proof PI_neq0. do 3 f_equal; field; assumption.
Qed.

(** *** The order of the plotted points *)

Lemma reduced_variable_increasing (F1 F2 : R) :
  0 < F1 -> F1 < F2 -> F2 < 1 ->
  reduced_variable F1 < reduced_variable F2.
Proof.
  intros H0 H12 H1. unfold reduced_variable.
  assert (ln F2 < 0) as L2 by (rewrite <- ln_1; apply ln_increasing; lra).
  pose proof (ln_increasing F1 F2 H0 H12) as L12.
  apply Ropp_lt_contravar. apply ln_increasing; lra.
Qed.

Lemma increasing_on_seq (f : nat -> R) (a n : nat) :
  (forall i j, (a <= i)%nat -> (i < j)%nat -> (j < a + n)%nat -> f i < f j) ->
  StronglySorted Rlt (map f (seq a n)).
Proof.
  revert a. induction n as [|n IH]; intros a Hf; simpl; constructor.
  - apply IH. intros i j Hi Hij Hj. apply Hf; lia.
  - apply Forall_forall. intros v Hv. apply in_map_iff in Hv.
    destruct Hv as (j & <- & Hj). apply in_seq in Hj. apply Hf; lia.
Qed.

Lemma Forall2_map_same {X : Type} (P : R -> R -> Prop) (f g : X -> R)
  (l : list X) :
  (forall i, In i l -> P (f i) (g i)) -> Forall2 P (map f l) (map g l).
Proof.
  induction l as [|i l IH]; intro H; simpl; constructor.
  - apply H. left. reflexivity.
  - apply IH. intros j Hj. apply H. right. exact Hj.
Qed.

Lemma quadratic_pos (t : R) : 0 < 1.109 + 0.514 * t + 0.608 * t ^ 2.
Proof. pose proof (pow2_ge_0 (t + 257 / 608)). nra. Qed.

(** What [gumbelPlot] plots when it fits the parameters, over the reals. *)
Lemma gumbelPlot_fin
  (gumbel_r_fit : list xreal -> result (xreal * xreal))
  (df : DataFrame) (ys : list R) (gamma delta : option xreal)
  (ax : option Axes) (lamb del : R) :
  column_Y df = map Fin ys ->
  gamma = None \/ delta = None ->
  gumbel_r_fit (column_Y df) = Ok (Fin lamb, Fin del) ->
  0 < del ->
  let N := List.length df in
  let idx := seq 1 N in
  let y := fun i : nat => reduced_variable (plotting_position N i) in
  let se := fun i : nat =>
    del * sqrt ((1.109 + 0.514 * y i + 0.608 * y i ^ 2) / INR N) in
  exists zs : list R,
    Sorted Rle zs
    /\ gumbelPlot gumbel_r_fit df gamma delta ax
       = Ok (match ax with None => [] | Some a => a end ++
             [ mkLine (map Fin zs) (map Fin (map y idx)) "" "o";
               mkLine (map Fin (map (fun i => del * y i + lamb) idx))
                      (map Fin (map y idx)) "-" "";
               mkLine (map Fin (map (fun i => del * y i + lamb - 2 * se i)
                                    idx))
                      (map Fin (map y idx)) "--" "";
               mkLine (map Fin (map (fun i => del * y i + lamb + 2 * se i)
                                    idx))
                      (map Fin (map y idx)) "--" "" ]).
Proof.
  intros HY Hnone Hfit Hdel N idx y se.
  destruct (eCDF_fin df ys HY) as (zs & E & _ & S).
  exists zs. split; [exact S | ].
  unfold gumbelPlot. rewrite E. fold N idx.
  assert (map (fun p => fmul (dec (-10) (-1)) (flog (fneg (flog p))))
              (map (fun i => Fin (plotting_position N i)) idx)
          = map Fin (map y idx)) as R1.
  { rewrite !map_map. apply map_ext_in. intros i Hi.
    apply in_seq in Hi. apply redVar_fin, plotting_position_bounds. lia. }
  rewrite R1.
  assert (match gamma, delta with
          | Some _, Some d => Ok (None, d)
          | _, _ => ('(l, d) <- fitEVml gumbel_r_fit df true ;;
                     Ok (Some l, d))%py
          end = Ok (Some (Fin lamb), Fin del)) as R2.
  { unfold fitEVml. rewrite Hfit.
    destruct Hnone as [-> | ->]; [ | destruct gamma]; reflexivity. }
  rewrite R2. clear R2. cbn [bind load].
  assert (map (fun v => fadd (fmul (Fin del) v) (Fin lamb))
              (map Fin (map y idx))
          = map Fin (map (fun i => del * y i + lamb) idx)) as R3.
  { rewrite !map_map. reflexivity. }
  rewrite R3.
  assert (map (fun x => calcSE x (Fin lamb) (Fin del) (Z.of_nat N))
              (map Fin (map (fun i => del * y i + lamb) idx))
          = map (fun i => Fin (se i)) idx) as R4.
  { rewrite !map_map. apply map_ext_in. intros i Hi. apply in_seq in Hi.
    assert (0 < INR N) as HN by (apply (lt_INR 0); lia).
    rewrite calcSE_fin by (rewrite <- ?INR_IZR_INZ; assumption).
    rewrite <- INR_IZR_INZ. unfold se.
    replace ((del * y i + lamb - lamb) / del) with (y i) by (field; lra).
    reflexivity. }
  rewrite R4, !map_map, !map2_map. unfold plot.
  rewrite <- !app_assoc. simpl.
  replace (IZR 20 / IZR (Z.pow_pos 10 1)) with 2 by (simpl; lra).
  reflexivity.
Qed.

(** X18.  The geometry of the Gumbel plot, when the fit returns a scale
    [delta > 0] for measurements that are numbers: every plotted value is a
    number; along the points the reduced variable and the fitted value
    increase strictly, and the sorted measurements do not decrease; and at
    every point the lower band end is below the fitted value and the upper
    band end is above it. *)
Theorem gumbelPlot_ordered
  (gumbel_r_fit : list xreal -> result (xreal * xreal))
  (df : DataFrame) (ys : list R) (gamma delta : option xreal)
  (ax : option Axes) (lamb del : R) :
  column_Y df = map Fin ys ->
  gamma = None \/ delta = None ->
  gumbel_r_fit (column_Y df) = Ok (Fin lamb, Fin del) ->
  0 < del ->
  exists xSorted redVar xML xmin xmax : list R,
    gumbelPlot gumbel_r_fit df gamma delta ax
    = Ok (match ax with None => [] | Some a => a end ++
          [ mkLine (map Fin xSorted) (map Fin redVar) "" "o";
            mkLine (map Fin xML) (map Fin redVar) "-" "";
            mkLine (map Fin xmin) (map Fin redVar) "--" "";
            mkLine (map Fin xmax) (map Fin redVar) "--" "" ])
    /\ Sorted Rle xSorted
    /\ StronglySorted Rlt redVar
    /\ StronglySorted Rlt xML
    /\ Forall2 Rlt xmin xML
    /\ Forall2 Rlt xML xmax.
Proof.
  intros HY Hnone Hfit Hdel.
  destruct (gumbelPlot_fin gumbel_r_fit df ys gamma delta ax lamb del
              HY Hnone Hfit Hdel) as (zs & S & E).
  set (N := List.length df) in *.
  set (y := fun i : nat => reduced_variable (plotting_position N i)) in *.
  set (se := fun i : nat =>
         del * sqrt ((1.109 + 0.514 * y i + 0.608 * y i ^ 2) / INR N)) in *.
  assert (forall i j, (1 <= i)%nat -> (i < j)%nat -> (j < 1 + N)%nat ->
            y i < y j) as Hy.
  { intros i j Hi Hij Hj. unfold y.
    pose proof (plotting_position_bounds N i ltac:(lia)) as [Bi _].
    pose proof (plotting_position_bounds N j ltac:(lia)) as [_ Bj].
    apply reduced_variable_increasing;
      [exact Bi | apply plotting_position_increasing, Hij | exact Bj]. }
  assert (forall i, In i (seq 1 N) -> 0 < se i) as Hse.
  { intros i Hi. apply in_seq in Hi.
    assert (0 < INR N) as HN by (apply (lt_INR 0); lia).
    unfold se. apply Rmult_lt_0_compat; [exact Hdel | ].
    apply sqrt_lt_R0, Rdiv_lt_0_compat; [ | exact HN].
    apply quadratic_pos. }
  do 5 eexists. split; [exact E | ].
  split; [exact S | ].
  split; [apply increasing_on_seq, Hy | ].
  split.
  { apply increasing_on_seq. intros i j Hi Hij Hj.
    apply Rplus_lt_compat_r, Rmult_lt_compat_l;
      [exact Hdel | exact (Hy i j Hi Hij Hj)]. }
  split; apply Forall2_map_same; intros i Hi;
    pose proof (Hse i Hi) as Hp; unfold se, y in Hp; lra.
Qed.

End IdealExtras.

(** ** In binary64 *)

Module Binary64Extras.
Import Binary64 Binary64Facts Deox EVGumbel.
Local Open Scope float_scope.

#[export] Instance binary64_order : OrderLaws float.
Proof.
  constructor. simpl. intros x y Nx Ny L.
  rewrite FloatAxioms.leb_spec in *.
  apply is_nan_false in Nx. apply is_nan_false in Ny.
  unfold SFleb in *. rewrite SFcompare_antisym.
  pose proof (SFcompare_defined _ _ Nx Ny) as D.
  destruct (SFcompare (Prim2SF x) (Prim2SF y)) as [[ | | ]|];
    simpl; congruence.
Qed.

Lemma eqb_zero_cases (d : float) :
  (d =? 0) = true -> exists s, Prim2SF d = S754_zero s.
Proof.
  rewrite FloatAxioms.eqb_spec. change (Prim2SF 0) with (S754_zero false).
  destruct (Prim2SF d) as [s|s| |s m e]; intro E; try discriminate E.
  - eauto.
  - destruct s; discriminate E.
  - destruct s; discriminate E.
Qed.

(** Below, a value "not finite" is an infinity or NaN. *)
Lemma div_by_zero_not_finite (d : spec_float) (s : bool) :
  SF64div d (S754_zero s) = S754_nan
  \/ exists b, SF64div d (S754_zero s) = S754_infinity b.
Proof. destruct d; simpl; eauto. Qed.

Lemma mul_not_finite (x s : spec_float) :
  s = S754_nan \/ (exists b, s = S754_infinity b) ->
  SF64mul x s = S754_nan \/ exists b, SF64mul x s = S754_infinity b.
Proof.
  intros [-> | [b ->]]; destruct x; simpl; eauto.
Qed.

Lemma add_not_finite (x s : spec_float) :
  s = S754_nan \/ (exists b, s = S754_infinity b) ->
  SF64add x s = S754_nan \/ exists b, SF64add x s = S754_infinity b.
Proof.
  intros [-> | [b ->]]; destruct x as [sx|sx| |sx m e]; simpl; eauto.
  destruct sx, b; eauto.
Qed.

Lemma div_not_finite (s n : spec_float) :
  s = S754_nan \/ (exists b, s = S754_infinity b) ->
  SF64div s n = S754_nan \/ exists b, SF64div s n = S754_infinity b.
Proof.
  intros [-> | [b ->]]; destruct n; simpl; eauto.
Qed.

Lemma sqrt_not_finite (s : spec_float) :
  s = S754_nan \/ (exists b, s = S754_infinity b) ->
  SF64sqrt s = S754_nan \/ exists b, SF64sqrt s = S754_infinity b.
Proof.
  intros [-> | [b ->]]; simpl; eauto. destruct b; simpl; eauto.
Qed.

Lemma zero_mul_not_finite (z : bool) (s : spec_float) :
  s = S754_nan \/ (exists b, s = S754_infinity b) ->
  SF64mul (S754_zero z) s = S754_nan.
Proof. intros [-> | [b ->]]; reflexivity. Qed.

(** X19.  With a scale equal to zero (of either sign) [calcSE] raises
    nothing and returns NaN, for every [x], [lamb] and [N]: the division by
    the scale gives an infinity or NaN, which nothing after it brings back
    to a number. *)
Theorem calcSE_zero_scale (x lamb delta : float) (N : Z) :
  (delta =? 0) = true ->
  calcSE x lamb delta N = nan.
Proof.
  intro Hd. destruct (eqb_zero_cases delta Hd) as [z Hz].
  unfold calcSE, sq.
  cbn [fsub fdiv fmul fadd fsqrt of_int dec arith].
  apply Prim2SF_inj.
  rewrite FloatAxioms.mul_spec, FloatAxioms.sqrt_spec, FloatAxioms.div_spec,
    !FloatAxioms.add_spec, !FloatAxioms.mul_spec, FloatAxioms.div_spec.
  rewrite Hz. change (Prim2SF nan) with S754_nan.
  pose proof (div_by_zero_not_finite (Prim2SF (x - lamb)) z) as Hy.
  apply zero_mul_not_finite, sqrt_not_finite, div_not_finite, add_not_finite.
  apply mul_not_finite, mul_not_finite, Hy.
Qed.

End Binary64Extras.

Module IdealOrder.
Import Ideal.

#[export] Instance ideal_order : OrderLaws xreal.
Proof.
  constructor. simpl. intros [x|] [y|] Nx Ny L; try discriminate.
  unfold xcmp in *.
  destruct (Rle_dec x y); try discriminate.
  destruct (Rle_dec y x); [reflexivity | lra].
Qed.

End IdealOrder.

(** ** The further properties at concrete inputs *)

Module Binary64ExtraExamples.
Import Binary64 Binary64Facts Binary64Proofs Binary64Extras Deox EVGumbel.
Local Open Scope float_scope.

Lemma data_deox_parallel_witness :
  exists out_O : list float,
    data_deox Sample.seed_solver Sample.identity_objective
              1873 [0.01; 0.1] 1 1e-8 2 1e-2 = Ok ([0.01; 0.1], out_O)
    /\ List.length out_O = List.length [0.01; 0.1].
Proof.
  assert (data_deox Sample.seed_solver Sample.identity_objective
                    1873 [0.01; 0.1] 1 1e-8 2 1e-2
          = Ok ([0.01; 0.1], [1e-8; 1e-8])) as E
    by (vm_compute; reflexivity).
  exists [1e-8; 1e-8]. split; [exact E | ].
  exact (proj1 (proj2 (data_deox_parallel (A := float) (num := arith)
                         _ _ _ _ _ _ _ _ _ _ E))).
Defined.

Lemma data_deox_invalid_order_witness :
  data_deox Sample.seed_solver Sample.identity_objective
            1873 [] 1 1e-8 3 1e-2 = Ok ([], []).
Proof.
  refine (proj1 (data_deox_invalid_order (A := float)
                   Sample.seed_solver Sample.identity_objective
                   1873 1 1e-8 3 1e-2 _)).
  simpl. lia.
Defined.

Lemma data_deox_first_failure_witness :
  data_deox Inputs.probe_solver Inputs.reciprocal_objective
            1873 ([1] ++ 0 :: [2]) 1 1e-8 2 1e-2
  = Raise ZeroDivisionError.
Proof.
  refine (data_deox_first_failure (A := float)
            Inputs.probe_solver Inputs.reciprocal_objective
            1873 [1] 0 [2] 1 1e-8 2 1e-2 [1e-8] ZeroDivisionError _ _);
    vm_compute; reflexivity.
Defined.

Lemma eCDF_ascending_nan_last_witness :
  exists numbers missing : list float,
    fst (eCDF Inputs.rows_with_missing) = numbers ++ missing
    /\ Permutation (column_Y Inputs.rows_with_missing) (numbers ++ missing)
    /\ Forall (fun x => PrimFloat.is_nan x = false) numbers
    /\ Forall (fun x => PrimFloat.is_nan x = true) missing
    /\ Sorted (fun a b => (a <=? b) = true) numbers.
Proof.
  exact (eCDF_ascending_nan_last (A := float) Inputs.rows_with_missing).
Defined.

Example eCDF_rows_with_missing :
  eCDF Inputs.rows_with_missing = ([1; 2; 3; nan], [0.2; 0.4; 0.6; 0.8]).
Proof. vm_compute. reflexivity. Qed.

Lemma calcSE_zero_scale_witness : calcSE 60 50 (-0) 24 = nan.
Proof.
  refine (calcSE_zero_scale 60 50 (-0) 24 _). vm_compute. reflexivity.
Defined.

Lemma calcSE_at_location_binary64_witness :
  calcSE 50 50 10 24 = 10 * PrimFloat.sqrt (1.109 / 24).
Proof.
  refine (calcSE_at_location_binary64 50 10 24 _ _ _);
    [vm_compute; reflexivity | vm_compute; reflexivity | lia].
Defined.

Lemma Al_O_eqs_order_0_binary64_witness :
  exists eps : float,
    @Al_O_eqs_in float arith (elementary PrimFloat.sqrt PrimFloat.sqrt)
                 module_globals 0.001 (0.01, 1873, 1, 0%Z) = Ok eps
    /\ same_number eps
         (2 * PrimFloat.sqrt 0.01 + 3 * PrimFloat.sqrt 0.001
          - PrimFloat.sqrt 1 - (-45300 / 1873 + 11.62)).
Proof.
  refine (Al_O_eqs_order_0_binary64 PrimFloat.sqrt PrimFloat.sqrt
            module_globals 0.001 0.01 1873 1 _).
  vm_compute. reflexivity.
Defined.

End Binary64ExtraExamples.

Module IdealExtraExamples.
Import Ideal IdealFacts IdealOrder Deox EVGumbel IdealProofs IdealExtras.
Local Open Scope R_scope.

Lemma zero_temperature_witness : logK_Al (Fin 0) = Raise ZeroDivisionError.
Proof.
  refine (proj1 (zero_temperature (A := xreal) (Fin 0) _)).
  simpl. destruct (Req_dec_T 0 0); [reflexivity | contradiction].
Defined.

Lemma gumbelPlot_fit_raises_witness :
  gumbelPlot Inputs.failing_fit Sample.df None None None
  = Raise (ValueError "The data contains non-finite values.").
Proof.
  refine (gumbelPlot_fit_raises (A := xreal) Inputs.failing_fit Sample.df
            None None None _ _ _).
  - left. reflexivity.
  - reflexivity.
Defined.

Lemma gumbelPlot_lines_witness :
  exists (lines : Axes) (xSorted redVar xML xmin xmax : list xreal),
    gumbelPlot Sample.fixed_fit Sample.df None None None = Ok lines
    /\ lines = [] ++ [ mkLine xSorted redVar "" "o";
                       mkLine xML redVar "-" "";
                       mkLine xmin redVar "--" "";
                       mkLine xmax redVar "--" "" ].
Proof.
  destruct (gumbelPlot_fin Sample.fixed_fit Sample.df Sample.Y_real
              None None None 50 10) as (zs & _ & E).
  - reflexivity.
  - left. reflexivity.
  - reflexivity.
  - lra.
  - destruct (gumbelPlot_lines (A := xreal) _ _ _ _ _ _ E)
      as (xSorted & redVar & xML & xmin & xmax & L & _).
    eexists. exists xSorted, redVar, xML, xmin, xmax.
    split; [exact E | exact L].
Defined.

Lemma casadi_agrees_witness :
  logK_Al (Fin 1873) = Ok (DeoxCasadi.logK_Al (Fin 1873)).
Proof.
  apply (casadi_agrees 1873). lra.
Defined.

Lemma Al_O_eqs_orders_witness :
  exists eps0 : R,
    Al_O_eqs (Fin 0.001) (Fin 0.01, Fin 1873, Fin 1, 0%Z) = Ok (Fin eps0)
    /\ Al_O_eqs (Fin 0.001) (Fin 0.01, Fin 1873, Fin 1, 1%Z)
       = Ok (Fin (eps0
                  + (2 * (80.5 / 1873 * 0.01 + (3.21 - 9720 / 1873) * 0.001)
                     + 3 * ((1.90 - 5750 / 1873) * 0.01
                            + (0.76 - 1750 / 1873) * 0.001)))).
Proof.
  destruct (Al_O_eqs_orders 0.001 0.01 1873 1) as (eps0 & E0 & E1 & _);
    try lra.
  exists eps0. split; [exact E0 | exact E1].
Defined.

Lemma order_0_equilibrium_witness :
  Al_O_eqs
    (Fin (Rpower 10 ((log10 1 + (-45300 / 1873 + 11.62) - 2 * log10 0.01) / 3)))
    (Fin 0.01, Fin 1873, Fin 1, 0%Z)
  = Ok (Fin 0).
Proof.
  destruct (order_0_equilibrium 1873 1) as (H & _); try lra.
  apply (H 0.01). lra.
Defined.

Lemma calcSE_width_witness :
  exists se : R, calcSE (Fin 60) (Fin 50) (Fin 10) 24 = Fin se /\ 0 < se.
Proof.
  destruct (calcSE_width 60 50 10 24) as (se & E & P & _); [lra | lia | ].
  exists se. split; [exact E | exact P].
Defined.

Lemma fitEVmom_constant_sample_witness :
  fitEVmom Inputs.three_equal_tenths true = Ok (Fin (1 / 10), Fin 0).
Proof.
  apply (fitEVmom_constant_sample Inputs.three_equal_tenths (1 / 10) true).
  - repeat constructor.
  - simpl. lia.
Defined.

Lemma row_order_irrelevant_witness :
  eCDF Inputs.three_rows_swapped = eCDF Inputs.three_rows
  /\ fitEVmom Inputs.three_rows_swapped true = fitEVmom Inputs.three_rows true.
Proof.
  apply (row_order_irrelevant Inputs.three_rows Inputs.three_rows_swapped
           [40.29; 37.24; 29.03] true).
  - reflexivity.
  - apply perm_swap.
Defined.

Lemma fitEVmom_affine_witness :
  exists lamb delta : R,
    fitEVmom Inputs.three_rows true = Ok (Fin lamb, Fin delta)
    /\ fitEVmom Inputs.three_rows_scaled true
       = Ok (Fin (0.001 * lamb + 0), Fin (0.001 * delta)).
Proof.
  apply (fitEVmom_affine Inputs.three_rows Inputs.three_rows_scaled
           [40.29; 37.24; 29.03] 0.001 0 true).
  - reflexivity.
  - simpl. repeat (apply f_equal2; [apply f_equal; lra | ]). reflexivity.
  - lra.
  - simpl. lia.
Defined.

Lemma gumbelPlot_ordered_witness :
  exists xSorted redVar xML xmin xmax : list R,
    gumbelPlot Sample.fixed_fit Sample.df None None None
    = Ok ([] ++
          [ mkLine (map Fin xSorted) (map Fin redVar) "" "o";
            mkLine (map Fin xML) (map Fin redVar) "-" "";
            mkLine (map Fin xmin) (map Fin redVar) "--" "";
            mkLine (map Fin xmax) (map Fin redVar) "--" "" ])
    /\ StronglySorted Rlt xML.
Proof.
  destruct (gumbelPlot_ordered Sample.fixed_fit Sample.df Sample.Y_real
              None None None 50 10)
    as (xSorted & redVar & xML & xmin & xmax & E & _ & _ & S & _).
  - reflexivity.
  - left. reflexivity.
  - reflexivity.
  - lra.
  - exists xSorted, redVar, xML, xmin, xmax. split; [exact E | exact S].
Defined.

End IdealExtraExamples.
